(** * AI Menu Widget backend (python-backend/main.py): model and properties

    The request pipeline of [main.py] as Rocq functions: the item-name and
    model-id validators of [MenuItemRequest], the sliding-window rate limiter
    [check_rate_limit], the response repairer
    [PromptEngineer.validate_ai_response], the keyword classifier
    [get_simulate_response] and the handler [generate_item_details].

    Conventions.
    - A Python [str] is a list of Unicode code points ([N]); [len] is [length].
    - A function that may raise returns a [result]; the exception classes the
      program distinguishes are the constructors of [exn].
    - The module-level dictionary [rate_limit_store] is threaded through the
      functions that read and write it; [time.time()] is an argument.
    - [json.loads] and the OpenAI client are library code: functions that use
      them take them as arguments. *)

From Stdlib Require Import QArith Lia Lra Ascii String.
From Stdlib Require Import Floats.SpecFloat.
From stdpp Require Import strings gmap list.

#[local] Set Warnings "-register-all,-notation-for-abbreviation".
#[local] Close Scope Q_scope.
#[local] Open Scope N_scope.

(** ** Strings *)

Notation char := N (only parsing).
Notation str := (list N) (only parsing).

(** A literal of the source, as code points (Basic Latin literals only). *)
Definition text (s : string) : str :=
  (λ a, N_of_ascii a) <$> list_ascii_of_string s.

(** [str.isspace] on one code point: the whitespace set of CPython, which is
    also the set of [\s] in [re] for str patterns. *)
Definition isspace (c : char) : bool :=
  ((9 <=? c) && (c <=? 13)) || ((28 <=? c) && (c <=? 32))
  || (c =? 133) || (c =? 160) || (c =? 5760)
  || ((8192 <=? c) && (c <=? 8202))
  || (c =? 8232) || (c =? 8233) || (c =? 8239) || (c =? 8287) || (c =? 12288).

Fixpoint lstrip (s : str) : str :=
  match s with
  | c :: t => if isspace c then lstrip t else s
  | [] => []
  end.

Definition rstrip (s : str) : str := rev (lstrip (rev s)).

(** [s.strip()] *)
Definition strip (s : str) : str := rstrip (lstrip s).

Definition is_upper_ascii (c : char) : bool := (65 <=? c) && (c <=? 90).

(** [str.lower] on one code point.  Basic Latin capitals go to their small
    letters; U+0130 and U+212A are the only code points above U+007F whose
    lower-case form contains a Basic Latin letter.  Every other code point is
    left as it is: its lower-case form is one code point outside Basic Latin,
    so the tests [word in s.lower()] of the program, whose words are all Basic
    Latin, are the same on both. *)
Definition lower_char (c : char) : str :=
  if is_upper_ascii c then [c + 32]
  else if c =? 304 then [105; 775]
  else if c =? 8490 then [107]
  else [c].

(** [s.lower()] *)
Definition lower (s : str) : str := s ≫= lower_char.

Fixpoint startswith (s prefix : str) : bool :=
  match prefix, s with
  | [], _ => true
  | p :: prefix', c :: s' => (c =? p) && startswith s' prefix'
  | _ :: _, [] => false
  end.

(** [word in s] *)
Fixpoint contains (word s : str) : bool :=
  startswith s word ||
  match s with
  | _ :: t => contains word t
  | [] => false
  end.

(** [any(word in s for word in words)] *)
Definition any_in (words : list str) (s : str) : bool :=
  existsb (λ word, contains word s) words.

(** [s.split(sep)] for a one-character separator. *)
Fixpoint split (sep : char) (s : str) : list str :=
  match s with
  | [] => [[]]
  | c :: t =>
      if c =? sep then [] :: split sep t
      else match split sep t with
           | h :: r => (c :: h) :: r
           | [] => [[c]]
           end
  end.

Definition is_empty (s : str) : bool :=
  match s with [] => true | _ => false end.

(** ** Exceptions *)

Inductive exn :=
| ValueError (msg : str)
| JSONDecodeError (msg : str)
| AttributeError (msg : str)
| HTTPException (status : Z) (detail : str)
| OtherException (msg : str).

Inductive result (A : Type) :=
| Ok (a : A)
| Raise (e : exn).
Arguments Ok {A} a.
Arguments Raise {A} e.

(** [str(e)] *)
Definition exn_str (e : exn) : str :=
  match e with
  | ValueError msg | JSONDecodeError msg | AttributeError msg
  | OtherException msg => msg
  | HTTPException _ detail => detail
  end.

(** ** Regular expressions of the program

    The patterns of the program are sequences of one-character atoms, each
    taken once, zero or more times ([*]) or one or more times ([+]).  All of
    them are searched with [re.IGNORECASE]. *)

Inductive atom :=
| Lit (c : char)   (* a literal character of the pattern *)
| Dot              (* [.] : any character but a newline *)
| Space.           (* [\s] *)

Inductive piece :=
| One (a : atom)
| Star (a : atom)
| Plus (a : atom).

Notation regex := (list piece) (only parsing).

(** Simple lower-case mapping used by [re] for case-insensitive literals,
    as far as it reaches Basic Latin. *)
Definition re_tolower (c : char) : char :=
  if is_upper_ascii c then c + 32
  else if c =? 304 then 105
  else if c =? 8490 then 107
  else c.

(** Does the character [c] match the pattern literal [p] under
    [re.IGNORECASE]?  Besides equal lower-case forms, [re] pairs i with
    U+0131 and s with U+017F. *)
Definition icase_match (p c : char) : bool :=
  let lo := re_tolower p in
  (re_tolower c =? lo)
  || ((lo =? 105) && (c =? 305))
  || ((lo =? 115) && (c =? 383)).

Definition atom_match (a : atom) (c : char) : bool :=
  match a with
  | Lit p => icase_match p c
  | Dot => negb (c =? 10)
  | Space => isspace c
  end.

(** Does the pattern match a prefix of the text? *)
Fixpoint match_here (r : regex) : str → bool :=
  match r with
  | [] => λ _, true
  | One a :: r' =>
      λ s, match s with
           | c :: t => atom_match a c && match_here r' t
           | [] => false
           end
  | Star a :: r' =>
      fix star (s : str) : bool :=
        match_here r' s ||
        match s with
        | c :: t => atom_match a c && star t
        | [] => false
        end
  | Plus a :: r' =>
      λ s, match s with
           | c :: t =>
               atom_match a c &&
               (fix star (s : str) : bool :=
                  match_here r' s ||
                  match s with
                  | c :: t => atom_match a c && star t
                  | [] => false
                  end) t
           | [] => false
           end
  end.

(** [re.search(pattern, s, re.IGNORECASE) is not None] *)
Fixpoint re_search (r : regex) (s : str) : bool :=
  match_here r s ||
  match s with
  | _ :: t => re_search r t
  | [] => false
  end.

(** The texts a pattern matches in full. *)
Fixpoint matched (r : regex) (m : str) : Prop :=
  match r with
  | [] => m = []
  | One a :: r' =>
      ∃ c m', m = c :: m' ∧ atom_match a c = true ∧ matched r' m'
  | Star a :: r' =>
      ∃ run m', m = run ++ m' ∧ forallb (atom_match a) run = true ∧ matched r' m'
  | Plus a :: r' =>
      ∃ c run m', m = c :: run ++ m' ∧ atom_match a c = true ∧
        forallb (atom_match a) run = true ∧ matched r' m'
  end.

Definition atom_of (p : piece) : atom :=
  match p with One a | Star a | Plus a => a end.

(** Pattern literals that are small letters, or one of [:], [/], [(]. *)
Definition plain_lit (p : char) : bool :=
  ((97 <=? p) && (p <=? 122)) || (p =? 58) || (p =? 47) || (p =? 40).

Definition plain_atom (a : atom) : bool :=
  match a with
  | Lit p => plain_lit p
  | Space => true
  | Dot => false
  end.

Definition plain_end (p : option piece) : bool :=
  match p with
  | Some (One (Lit c)) => plain_lit c
  | _ => false
  end.

(** Patterns made of plain literals and [\s], with a literal taken once at
    both ends. *)
Definition plain (r : regex) : bool :=
  forallb (λ p, plain_atom (atom_of p)) r && plain_end (head r) && plain_end (head (rev r)).

(** The pattern of a literal string (with [\(] for a parenthesis). *)
Definition literal (s : string) : regex := (λ c, One (Lit c)) <$> text s.

(** [re.sub(r'[...]', '', s)] for a character class. *)
Definition re_sub_class (class : list char) (s : str) : str :=
  List.filter (λ c, negb (existsb (N.eqb c) class)) s.

(** [re.sub(r'(a1|a2|...)', '', s)] for literal alternatives: at each place
    the first alternative that matches is removed, and the search goes on
    after it.  [skip] counts the characters of a match still to drop. *)
Fixpoint re_sub_alts_from (alts : list str) (skip : nat) (s : str) : str :=
  match s with
  | [] => []
  | c :: t =>
      match skip with
      | S k => re_sub_alts_from alts k t
      | O =>
          match List.find (startswith s) alts with
          | Some a => re_sub_alts_from alts (Nat.pred (length a)) t
          | None => c :: re_sub_alts_from alts 0 t
          end
      end
  end.

Definition re_sub_alts (alts : list str) (s : str) : str :=
  re_sub_alts_from alts 0 s.

(** The error monad of [result]. *)
#[global] Instance result_ret : MRet result := λ A a, Ok a.
#[global] Instance result_bind : MBind result :=
  λ A B f m, match m with Ok a => f a | Raise e => Raise e end.

(** ** MenuItemRequest: the validators *)

(** The character class of the sanitising [re.sub]: the two angle brackets,
    the double quote and the single quote. *)
Definition forbidden_chars : list char := [60; 62; 34; 39].

Definition tag_shape : regex := [One (Lit 60); Star Dot; One (Lit 62)].

(** [suspicious_patterns], in the order of the source. *)
Definition suspicious_patterns : list regex :=
  [ literal "script"; literal "javascript"; tag_shape;
    literal "http://"; literal "https://";
    literal "exec("; literal "eval("; literal "system(";
    literal "import" ++ [Plus Space] ++ literal "os" ].

(** The same list without the tag shape [<.*>]. *)
Definition suspicious_patterns_without_tag : list regex :=
  [ literal "script"; literal "javascript";
    literal "http://"; literal "https://";
    literal "exec("; literal "eval("; literal "system(";
    literal "import" ++ [Plus Space] ++ literal "os" ].

(** The characters the sanitiser keeps. *)
Definition kept (c : char) : bool := negb (existsb (N.eqb c) forbidden_chars).

(** The cleaned form of a raw item name: trimmed, forbidden characters
    removed. *)
Definition sanitize (v : str) : str := re_sub_class forbidden_chars (strip v).

(** The body of [validate_item_name], for a given list of patterns. *)
Definition validate_item_name_with (patterns : list regex) (v : str) : result str :=
  if is_empty v || is_empty (strip v) then
    Raise (ValueError (text "Item name cannot be empty"))
  else
    let sanitized := sanitize v in
    if (100 <? length sanitized)%nat then
      Raise (ValueError (text "Item name too long (max 100 characters)"))
    else if existsb (λ pattern, re_search pattern sanitized) patterns then
      Raise (ValueError (text "Invalid characters detected in item name"))
    else Ok sanitized.

(** [MenuItemRequest.validate_item_name] *)
Definition validate_item_name (v : str) : result str :=
  validate_item_name_with suspicious_patterns v.

(** The validator with the tag shape taken out of the list. *)
Definition validate_item_name_without_tag (v : str) : result str :=
  validate_item_name_with suspicious_patterns_without_tag v.

Definition allowed_models : list str :=
  [text "gpt-3.5-turbo"; text "gpt-4"; text "gpt-4-turbo"].

(** [MenuItemRequest.validate_gpt_model]; the field is [Optional[str]], and
    [None] is not in the list. *)
Definition validate_gpt_model (v : option str) : str :=
  match v with
  | Some m => if bool_decide (m ∈ allowed_models) then m else text "gpt-3.5-turbo"
  | None => text "gpt-3.5-turbo"
  end.

(** The JSON body of a request, with fields of the declared types; a missing
    [gpt_model] takes the default, which is what the validator gives for
    [None] too. *)
Record RequestBody := {
  body_item_name : str;
  body_simulate : option bool;
  body_gpt_model : option str
}.

(** A validated [MenuItemRequest]. *)
Record MenuItemRequest := {
  item_name : str;
  simulate : option bool;
  gpt_model : str
}.

(** Construction of the model from the body: the field validators run, and
    a [ValueError] of one of them fails the construction. *)
Definition parse_request (body : RequestBody) : result MenuItemRequest :=
  name ← validate_item_name (body_item_name body);
  mret {| item_name := name;
          simulate := body_simulate body;
          gpt_model := validate_gpt_model (body_gpt_model body) |}.

Record MenuItemResponse := {
  description : str;
  upsell_suggestion : str;
  generated_at : str;
  model_used : str
}.

(** ** Rate limiting *)

(** [current_time - req_time < window] *)
Definition in_window (current_time : Q) (window : Z) (req_time : Q) : bool :=
  negb (Qle_bool (inject_Z window) (current_time - req_time)%Q).

(** [check_rate_limit]: the store before the call and the value of
    [time.time()] come in, the store after the call and the answer go out. *)
Definition check_rate_limit (rate_limit_store : gmap str (list Q))
    (current_time : Q) (client_ip : str) (limit window : Z)
  : gmap str (list Q) * bool :=
  let store1 :=
    match rate_limit_store !! client_ip with
    | None => <[client_ip := []]> rate_limit_store
    | Some _ => rate_limit_store
    end in
  let recent :=
    List.filter (in_window current_time window) (default [] (store1 !! client_ip)) in
  let store2 := <[client_ip := recent]> store1 in
  if (limit <=? Z.of_nat (length recent))%Z then (store2, false)
  else (<[client_ip := recent ++ [current_time]]> store2, true).

(** The stores the program can be in when every call passes the same
    [limit] and [window]: the empty dictionary of start-up, and the store
    after one more call. *)
Inductive reachable (limit window : Z) : gmap str (list Q) → Prop :=
| reachable_start : reachable limit window ∅
| reachable_call store current_time client_ip :
    reachable limit window store →
    reachable limit window
      (check_rate_limit store current_time client_ip limit window).1.

(** The store after a series of calls of one client, at the given times. *)
Definition after_calls (limit window : Z) (client_ip : str) (times : list Q)
    (store : gmap str (list Q)) : gmap str (list Q) :=
  fold_left (λ s t, (check_rate_limit s t client_ip limit window).1) times store.

(** The part of a starlette [Request] the program reads: the
    [X-Forwarded-For] header and [request.client], which may be [None]. *)
Record Request := {
  x_forwarded_for : option str;
  client_host : option str
}.

(** [get_client_ip] *)
Definition get_client_ip (request : Request) : result str :=
  match x_forwarded_for request with
  | Some (c :: forwarded) => Ok (hd [] (split 44 (c :: forwarded)))
  | _ =>
      match client_host request with
      | Some host => Ok host
      | None => Raise (AttributeError (text "'NoneType' object has no attribute 'host'"))
      end
  end.

(** ** The response repairer *)

(** The Python values [json.loads] can return. *)
Inductive pyval :=
| PNone
| PBool (b : bool)
| PInt (z : Z)
| PFloat (f : spec_float)
| PStr (s : str)
| PList (l : list pyval)
| PDict (d : gmap str pyval).

(** [bool(v)] *)
Definition truthy (v : pyval) : bool :=
  match v with
  | PNone => false
  | PBool b => b
  | PInt z => negb (z =? 0)%Z
  | PFloat f => match f with S754_zero _ => false | _ => true end
  | PStr s => negb (is_empty s)
  | PList l => match l with [] => false | _ => true end
  | PDict d => negb (Nat.eqb (size d) 0)
  end.

Definition type_name (v : pyval) : str :=
  match v with
  | PNone => text "NoneType"
  | PBool _ => text "bool"
  | PInt _ => text "int"
  | PFloat _ => text "float"
  | PStr _ => text "str"
  | PList _ => text "list"
  | PDict _ => text "dict"
  end.

(** The [AttributeError] of a method the value does not have. *)
Definition no_attribute (v : pyval) (attr : string) : exn :=
  AttributeError
    (text "'" ++ type_name v ++ text "' object has no attribute '" ++ text attr ++ text "'").

(** [v.get(key)]: only a dict has the method. *)
Definition py_get (v : pyval) (key : string) : result pyval :=
  match v with
  | PDict d => Ok (default PNone (d !! text key))
  | _ => Raise (no_attribute v "get")
  end.

(** [v.strip()]: only a str has the method. *)
Definition py_strip (v : pyval) : result str :=
  match v with
  | PStr s => Ok (strip s)
  | _ => Raise (no_attribute v "strip")
  end.

(** [if len(s) > limit: s = s[:keep] + "..."] *)
Definition cap (limit keep : nat) (s : str) : str :=
  if (limit <? length s)%nat then take keep s ++ text "..." else s.

(** The pair the repairer returns: a dict with exactly these two keys. *)
Record ai_response := {
  ai_description : str;
  ai_upsell_suggestion : str
}.

(** The body of the [try] of [validate_ai_response].  After the test on the
    two [get]s, [parsed] is a dict holding both keys, so [parsed[key]] is the
    value [get] gave. *)
Definition parse_structured (json_loads : str → result pyval)
    (response_text : str) : result ai_response :=
  parsed ← json_loads (strip response_text);
  d ← py_get parsed "description";
  if negb (truthy d) then Raise (ValueError (text "Missing required fields")) else
  u ← py_get parsed "upsell_suggestion";
  if negb (truthy u) then Raise (ValueError (text "Missing required fields")) else
  description ← py_strip d;
  let description := cap 150 147 description in
  upsell ← py_strip u;
  let upsell := cap 100 97 upsell in
  mret {| ai_description := description; ai_upsell_suggestion := upsell |}.

Definition cue_words : list str :=
  [text "pair"; text "add"; text "combo"; text "suggest"; text "try"].

Definition upsell_labels : list str :=
  [text "Combo:"; text "combo:"; text "suggestion:"; text "suggest:"].

(** [[line.strip() for line in response_text.split('\n') if line.strip()]] *)
Definition nonempty_lines (response_text : str) : list str :=
  List.filter (λ line, negb (is_empty line)) (strip <$> split 10 response_text).

(** The body of the [except] of [validate_ai_response]. *)
Definition parse_fallback (response_text : str) : ai_response :=
  let lines := nonempty_lines response_text in
  let description :=
    match lines with
    | first :: _ => first
    | [] => text "Delicious dish prepared with care."
    end in
  let description := cap 150 147 description in
  let upsell_line :=
    default [] (List.find (λ line, any_in cue_words (lower line)) (tail lines)) in
  let upsell_line :=
    match lines with
    | _ :: second :: _ => if is_empty upsell_line then second else upsell_line
    | _ => upsell_line
    end in
  let upsell := strip (re_sub_alts upsell_labels upsell_line) in
  let upsell :=
    if is_empty upsell then text "Pair it with your favorite beverage!" else upsell in
  {| ai_description := description; ai_upsell_suggestion := upsell |}.

(** [PromptEngineer.validate_ai_response]: the [except] clause takes
    [json.JSONDecodeError] and [ValueError]; any other exception leaves the
    function. *)
Definition validate_ai_response (json_loads : str → result pyval)
    (response_text : str) : result ai_response :=
  match parse_structured json_loads response_text with
  | Ok r => Ok r
  | Raise (JSONDecodeError _) | Raise (ValueError _) =>
      Ok (parse_fallback response_text)
  | Raise e => Raise e
  end.

(** ** The keyword classifier *)

Inductive category :=
| Italian | Burger | Indian | Sushi | Salad | Dessert | Drink | Default.

Definition keywords (c : category) : list str :=
  match c with
  | Italian => [text "pizza"; text "pasta"]
  | Burger => [text "burger"; text "sandwich"]
  | Indian => [text "curry"; text "biryani"; text "tikka"]
  | Sushi => [text "sushi"; text "roll"]
  | Salad => [text "salad"; text "bowl"]
  | Dessert => [text "dessert"; text "cake"; text "ice cream"]
  | Drink => [text "drink"; text "juice"; text "smoothie"]
  | Default => []
  end.

(** What follows [{item_name}] in the description of a category; the dash
    is U+2014. *)
Definition description_tail (c : category) : str :=
  [32; 8212; 32] ++
  match c with
  | Italian => text "freshly baked with premium ingredients, aromatic herbs, and authentic Italian flavors."
  | Burger => text "juicy, perfectly grilled with fresh vegetables and special sauce."
  | Indian => text "rich, aromatic spices with tender meat and authentic Indian flavors."
  | Sushi => text "fresh, premium fish with perfectly seasoned rice and crisp vegetables."
  | Salad => text "fresh, crisp vegetables with healthy grains and light dressing."
  | Dessert => text "sweet, indulgent treat made with premium ingredients."
  | Drink => text "refreshing, natural flavors with no artificial additives."
  | Default => text "delicious, freshly prepared with quality ingredients and authentic flavors."
  end.

Definition upsell_of (c : category) : str :=
  match c with
  | Italian => text "Pair it with a refreshing Italian Soda!"
  | Burger => text "Add crispy French Fries and a cold drink!"
  | Indian => text "Pair it with fluffy Naan bread and Mango Lassi!"
  | Sushi => text "Add miso soup and green tea!"
  | Salad => text "Add a protein boost with grilled chicken!"
  | Dessert => text "Pair it with hot coffee or tea!"
  | Drink => text "Add a light snack or dessert!"
  | Default => text "Pair it with your favorite beverage!"
  end.

(** The dict a branch of [get_simulate_response] returns. *)
Definition response_of (c : category) (item_name : str) : ai_response :=
  {| ai_description := item_name ++ description_tail c;
     ai_upsell_suggestion := upsell_of c |}.

(** [get_simulate_response]: the chain of [if]/[elif] of the source. *)
Definition get_simulate_response (item_name : str) : ai_response :=
  let item := lower item_name in
  if any_in (keywords Italian) item then response_of Italian item_name
  else if any_in (keywords Burger) item then response_of Burger item_name
  else if any_in (keywords Indian) item then response_of Indian item_name
  else if any_in (keywords Sushi) item then response_of Sushi item_name
  else if any_in (keywords Salad) item then response_of Salad item_name
  else if any_in (keywords Dessert) item then response_of Dessert item_name
  else if any_in (keywords Drink) item then response_of Drink item_name
  else response_of Default item_name.

(** The precedence rule in the words of the specification: the categories in
    their fixed order, and the first one with a keyword in the lower-cased
    name, or the default when there is none. *)
Definition category_order : list category :=
  [Italian; Burger; Indian; Sushi; Salad; Dessert; Drink].

Definition first_category (item_name : str) : category :=
  default Default
    (List.find (λ c, any_in (keywords c) (lower item_name)) category_order).

(** ** Prompts *)

Definition dq : str := [34].   (* the double quote *)

(** The lines of a text, joined by newlines. *)
Fixpoint join_lines (lines : list str) : str :=
  match lines with
  | [] => []
  | [line] => line
  | line :: rest => line ++ [10] ++ join_lines rest
  end.

(** [PromptEngineer.create_system_prompt] *)
Definition create_system_prompt : str :=
  join_lines
    [ text "You are an expert menu copywriter for a premium restaurant chain. Your role is to:";
      [];
      text "1. CREATE COMPELLING DESCRIPTIONS: Write appetizing, professional menu descriptions that make customers want to order immediately";
      text "2. SUGGEST RELEVANT UPSALES: Recommend complementary items that enhance the dining experience";
      text "3. MAINTAIN CONSISTENCY: Use consistent tone, style, and format across all descriptions";
      text "4. RESPECT CONSTRAINTS: Keep descriptions under 30 words and focus on key selling points";
      [];
      text "Guidelines:";
      text "- Highlight unique ingredients, cooking methods, and flavors";
      text "- Use sensory words (aromatic, crispy, tender, etc.)";
      text "- Emphasize quality and authenticity";
      text "- Suggest culturally appropriate pairings";
      text "- Maintain professional, appetizing tone";
      [];
      text "Output Format: Return ONLY a valid JSON object with " ++ dq ++ text "description" ++ dq ++ text " and " ++ dq ++ text "upsell_suggestion" ++ dq ++ text " fields." ].

(** [PromptEngineer.create_user_prompt] *)
Definition create_user_prompt (item_name : str) : str :=
  join_lines
    [ text "Create a menu description for " ++ dq ++ item_name ++ dq ++ text " following these specific requirements:";
      [];
      text "DESCRIPTION REQUIREMENTS:";
      text "- Maximum 30 words";
      text "- Highlight: key ingredients, cooking method, taste/texture, unique selling point";
      text "- Use appetizing, professional language";
      text "- Focus on what makes this dish special";
      [];
      text "UPSELL REQUIREMENTS:";
      text "- Suggest ONE complementary item (beverage, side, dessert)";
      text "- Should enhance the main dish experience";
      text "- Culturally appropriate pairing";
      text "- Specific, actionable suggestion";
      [];
      text "RESPONSE FORMAT:";
      text "Return ONLY a JSON object:";
      text "{";
      text "  " ++ dq ++ text "description" ++ dq ++ text ": " ++ dq ++ text "Your menu description here (max 30 words)" ++ dq ++ text ",";
      text "  " ++ dq ++ text "upsell_suggestion" ++ dq ++ text ": " ++ dq ++ text "Your upsell suggestion here" ++ dq;
      text "}";
      [];
      text "Ensure the response is valid JSON and follows the exact format specified." ].

(** ** The request handler *)

(** The chat-completion call, as the program sees it: given the model and
    the two prompts, the text of [completion.choices[0].message.content], or
    the exception raised by the call or by reading that text. *)
Definition chat_client := str → str → str → result str.

(** What a request can change: the rate-limit store, and the calls made to
    the model so far (model, system prompt, user prompt), latest last. *)
Record world := {
  rate_limit_store : gmap str (list Q);
  model_calls : list (str * str * str)
}.

Definition simulate_response (now_iso : str) (request : MenuItemRequest)
    (tag : string) : MenuItemResponse :=
  let response := get_simulate_response (item_name request) in
  {| description := ai_description response;
     upsell_suggestion := ai_upsell_suggestion response;
     generated_at := now_iso;
     model_used := text tag |}.

(** The inner [try] of the handler, up to its [return]: prompts, model call,
    repair of the answer. *)
Definition call_model (json_loads : str → result pyval) (client : chat_client)
    (now_iso : str) (request : MenuItemRequest) : result MenuItemResponse :=
  let system_prompt := create_system_prompt in
  let user_prompt := create_user_prompt (item_name request) in
  content ← client (gpt_model request) system_prompt user_prompt;
  let response_text := strip content in
  validated_response ← validate_ai_response json_loads response_text;
  mret {| description := ai_description validated_response;
          upsell_suggestion := ai_upsell_suggestion validated_response;
          generated_at := now_iso;
          model_used := gpt_model request |}.

(** [generate_item_details], the body of the handler.  [openai_client] is
    [None] when no API key is configured; [current_time] is [time.time()] and
    [now_iso] is [datetime.now().isoformat()].  An [HTTPException] is the
    error answer of the request. *)
Definition generate_item_details (json_loads : str → result pyval)
    (openai_client : option chat_client) (current_time : Q) (now_iso : str)
    (w : world) (request : MenuItemRequest) (client_request : Request)
  : world * result MenuItemResponse :=
  match get_client_ip client_request with
  | Raise e =>
      (w, Raise (HTTPException 500 (text "Internal server error: " ++ exn_str e)))
  | Ok client_ip =>
      let '(store, admitted) :=
        check_rate_limit (rate_limit_store w) current_time client_ip 10 60 in
      let w1 := {| rate_limit_store := store; model_calls := model_calls w |} in
      if negb admitted then
        (w1, Raise (HTTPException 429
                      (text "Rate limit exceeded. Please try again in 1 minute.")))
      else
        match default false (simulate request), openai_client with
        | false, Some client =>
            let w2 :=
              {| rate_limit_store := store;
                 model_calls :=
                   model_calls w ++
                   [(gpt_model request, create_system_prompt,
                     create_user_prompt (item_name request))] |} in
            match call_model json_loads client now_iso request with
            | Ok response => (w2, Ok response)
            | Raise _ => (w2, Ok (simulate_response now_iso request "fallback"))
            end
        | _, _ => (w1, Ok (simulate_response now_iso request "simulate"))
        end
  end.

(** The route [POST /generate-item-details]: the framework builds the
    [MenuItemRequest] from the body before it calls the handler, and answers
    422 itself when a validator raises; the message of the validator is the
    part of that answer kept here. *)
Definition post_generate_item_details (json_loads : str → result pyval)
    (openai_client : option chat_client) (current_time : Q) (now_iso : str)
    (w : world) (body : RequestBody) (client_request : Request)
  : world * result MenuItemResponse :=
  match parse_request body with
  | Raise e => (w, Raise (HTTPException 422 (exn_str e)))
  | Ok request =>
      generate_item_details json_loads openai_client current_time now_iso
        w request client_request
  end.

(** ** Sample data of the examples *)

(** A JSON object with a description of 60 spaces followed by 140 letters
    [a], 200 characters in all, and a one-letter upsell. *)
Definition padded_description : str := replicate 60 32 ++ replicate 140 97.

Definition padded_json : str :=
  text "{" ++ dq ++ text "description" ++ dq ++ text ": " ++ dq ++ padded_description ++ dq
  ++ text ", " ++ dq ++ text "upsell_suggestion" ++ dq ++ text ": " ++ dq ++ text "x" ++ dq
  ++ text "}".

(** The same with a description of 200 letters [a]. *)
Definition long_description : str := replicate 200 97.

Definition long_json : str :=
  text "{" ++ dq ++ text "description" ++ dq ++ text ": " ++ dq ++ long_description ++ dq
  ++ text ", " ++ dq ++ text "upsell_suggestion" ++ dq ++ text ": " ++ dq ++ text "x" ++ dq
  ++ text "}".

(** A JSON object whose description is one space. *)
Definition blank_json : str :=
  text "{" ++ dq ++ text "description" ++ dq ++ text ": " ++ dq ++ text " " ++ dq
  ++ text ", " ++ dq ++ text "upsell_suggestion" ++ dq ++ text ": " ++ dq ++ text "x" ++ dq
  ++ text "}".

Definition fields_of (description upsell : str) : gmap str pyval :=
  <[text "description" := PStr description]>
    (<[text "upsell_suggestion" := PStr upsell]> ∅).

Definition object_of (description upsell : str) : pyval :=
  PDict (fields_of description upsell).

(** What [json.loads] returns for the JSON texts of the examples.  Every
    other text the examples give it is not JSON, and is answered as
    [json.loads] answers those, with [JSONDecodeError]. *)
Definition json_loads_sample (s : str) : result pyval :=
  if bool_decide (s = text "[]") then Ok (PList [])
  else if bool_decide (s = padded_json) then Ok (object_of padded_description (text "x"))
  else if bool_decide (s = long_json) then Ok (object_of long_description (text "x"))
  else if bool_decide (s = blank_json) then Ok (object_of (text " ") (text "x"))
  else Raise (JSONDecodeError (text "Expecting value: line 1 column 1 (char 0)")).

(** Two lines that are not JSON: a description, then an upsell of 120
    letters. *)
Definition two_lines : str := text "Tasty" ++ [10] ++ replicate 120 97.

Definition script_body : RequestBody :=
  {| body_item_name := text "<script>alert(1)</script>";
     body_simulate := None; body_gpt_model := None |}.

Definition pizza_request : MenuItemRequest :=
  {| item_name := text "Margherita Pizza"; simulate := Some false;
     gpt_model := text "gpt-4" |}.

(** Ten calls of one client, one a second from time 0. *)
Definition ten_calls : gmap str (list Q) :=
  after_calls 10 60 (text "10.0.0.7")
    [0; 1; 2; 3; 4; 5; 6; 7; 8; 9]%Q ∅.

(** A valid item name of 100 letters, asked in simulate mode. *)
Definition long_name_body : RequestBody :=
  {| body_item_name := replicate 100 97;
     body_simulate := Some true; body_gpt_model := None |}.

Definition long_name_request : MenuItemRequest :=
  {| item_name := replicate 100 97; simulate := Some true;
     gpt_model := text "gpt-3.5-turbo" |}.

(** A model client that times out, and one that answers with a fixed text. *)
Definition client_timeout : chat_client :=
  λ _ _ _, Raise (OtherException (text "Request timed out."))  .

Definition client_answer (answer : str) : chat_client := λ _ _ _, Ok answer.

Definition empty_world : world := {| rate_limit_store := ∅; model_calls := [] |}.

Definition direct_request : Request :=
  {| x_forwarded_for := None; client_host := Some (text "127.0.0.1") |}.


(** ** Series of calls of the rate limiter *)



(** The stores the program reaches when the clock never goes back: the
    index is the time of the latest call, or the time of start-up. *)
Inductive reachable_at (limit window : Z) : Q → gmap str (list Q) → Prop :=
| reachable_at_start t : reachable_at limit window t ∅
| reachable_at_call t store t' client_ip :
    reachable_at limit window t store →
    (t <= t')%Q →
    reachable_at limit window t'
      (check_rate_limit store t' client_ip limit window).1.

(** A list of times in order, earliest first. *)
Fixpoint in_time_order (l : list Q) : Prop :=
  match l with
  | [] => True
  | t :: rest => Forall (λ t', (t <= t')%Q) rest ∧ in_time_order rest
  end.

(** ** Sample requests *)

(** A request that came through two proxies. *)
Definition proxied_request : Request :=
  {| x_forwarded_for := Some (text "203.0.113.9, 10.0.0.1, 10.0.0.2");
     client_host := Some (text "10.0.0.2") |}.

(** A request with neither a forwarded-for header nor a peer address. *)
Definition anonymous_request : Request :=
  {| x_forwarded_for := None; client_host := None |}.

Definition pizza_body : RequestBody :=
  {| body_item_name := text "Margherita Pizza";
     body_simulate := Some false; body_gpt_model := Some (text "gpt-4") |}.

(** A world in which the client 127.0.0.1 has used its ten requests. *)
Definition busy_world : world :=
  {| rate_limit_store :=
       after_calls 10 60 (text "127.0.0.1") [0; 1; 2; 3; 4; 5; 6; 7; 8; 9]%Q ∅;
     model_calls := [] |}.

(** ** Sample answers of the model *)

(** An answer in plain text: a description, then a labelled upsell. *)
Definition plain_answer : str :=
  text "Crisp crust, slow-cooked sauce." ++ [10] ++ text "Combo: add garlic bread".

(** A JSON object with short fields, padded with spaces. *)
Definition tidy_json : str :=
  text "{" ++ dq ++ text "description" ++ dq ++ text ": " ++ dq ++ text " Wood-fired. " ++ dq
  ++ text ", " ++ dq ++ text "upsell_suggestion" ++ dq ++ text ": " ++ dq ++ text "Add a soda" ++ dq
  ++ text "}".

(** A JSON object without the upsell field. *)
Definition partial_json : str :=
  text "{" ++ dq ++ text "description" ++ dq ++ text ": " ++ dq ++ text "Wood-fired." ++ dq
  ++ text "}".

(** [json_loads_sample], with the values of the two objects above. *)
Definition json_loads_sample2 (s : str) : result pyval :=
  if bool_decide (s = tidy_json)
  then Ok (object_of (text " Wood-fired. ") (text "Add a soda"))
  else if bool_decide (s = partial_json)
  then Ok (PDict (<[text "description" := PStr (text "Wood-fired.")]> ∅))
  else json_loads_sample s.

(** ** The order of the categories *)

(** The place of a category in the chain of tests of the classifier. *)
Definition rank (c : category) : nat :=
  match c with
  | Italian => 0 | Burger => 1 | Indian => 2 | Sushi => 3
  | Salad => 4 | Dessert => 5 | Drink => 6 | Default => 7
  end.

(** ** The parts of the user prompt *)

(** What comes before the item name in the user prompt, up to the opening
    double quote, and what comes after it, from the closing double quote. *)
Definition user_prompt_head : str := text "Create a menu description for " ++ dq.

Definition user_prompt_tail : str :=
  drop (length user_prompt_head) (create_user_prompt []).

(** ** Sample bodies *)

Definition brackets_body : RequestBody :=
  {| body_item_name := text "<>"; body_simulate := Some true;
     body_gpt_model := None |}.

(** ** setup.py

    The set-up script, over the part of the machine it touches: the files,
    as a map from the paths that exist to their contents, and the lines the
    script itself prints.  The command it runs ([pip]) is a function of the
    argument list and the files, giving the files it leaves and its return
    code.  Files are written as on a POSIX system, and writing succeeds. *)

Record machine := {
  files : gmap str str;
  printed : list str
}.

(** How a function of the script ends: it returns, or [sys.exit] ends the
    script with a code. *)
Inductive ending :=
| Returned
| SystemExit (code : Z).

(** [print(line)] *)
Definition print (line : str) (m : machine) : machine :=
  {| files := files m; printed := printed m ++ [line] |}.

(** [subprocess.check_call]: the command, as the script sees it. *)
Definition command := list str → gmap str str → gmap str str * Z.

(** [install_requirements]; [executable] is [sys.executable]. *)
Definition install_requirements (executable : str) (check_call : command)
    (m : machine) : machine * ending :=
  let m := print (text "Installing required packages...") m in
  let ran :=
    check_call [executable; text "-m"; text "pip"; text "install"; text "-r";
                text "requirements.txt"] (files m) in
  let m := {| files := ran.1; printed := printed m |} in
  if (ran.2 =? 0)%Z then
    (print ([9989] ++ text " Requirements installed successfully!") m, Returned)
  else
    (print ([10060] ++ text " Failed to install requirements") m, SystemExit 1).

(** What [create_env_file] writes, in its five [f.write]. *)
Definition env_template : str :=
  text "# OpenAI Configuration" ++ [10]
  ++ text "OPENAI_API_KEY=your_openai_api_key_here" ++ [10]
  ++ text "OPENAI_MODEL=gpt-3.5-turbo" ++ [10]
  ++ [10] ++ text "# Server Configuration" ++ [10]
  ++ text "PORT=8000" ++ [10].

(** [create_env_file] *)
Definition create_env_file (m : machine) : machine :=
  let env_file := text ".env" in
  match files m !! env_file with
  | None =>
      let m := print (text "Creating .env file...") m in
      let m := {| files := <[env_file := env_template]> (files m);
                  printed := printed m |} in
      print ([9989] ++ text " .env file created!") m
  | Some _ => print ([9989] ++ text " .env file already exists") m
  end.

(** [main] of the script. *)
Definition setup_main (executable : str) (check_call : command)
    (m : machine) : machine * ending :=
  let m :=
    print ([128640] ++ text " Setting up AI Menu Intelligence Widget Python Backend...") m in
  let m := print [] m in
  match install_requirements executable check_call m with
  | (m, SystemExit code) => (m, SystemExit code)
  | (m, Returned) =>
      let m := create_env_file m in
      let m := print [] m in
      let m := print ([127881] ++ text " Setup complete!") m in
      let m := print [] m in
      let m := print (text "Next steps:") m in
      let m := print (text "1. Edit .env file and add your OpenAI API key") m in
      let m := print (text "2. Run: python main.py") m in
      let m := print (text "3. Open: http://localhost:8000/docs for API documentation") m in
      let m := print (text "4. Frontend will connect to: http://localhost:8000") m in
      (m, Returned)
  end.

(** A machine with a key already in its [.env], a [pip] that fails and
    one that installs a package. *)
Definition configured_machine : machine :=
  {| files := {[ text ".env" := text "OPENAI_API_KEY=sk-live" ++ [10] ]};
     printed := [] |}.

Definition fresh_machine : machine := {| files := ∅; printed := [] |}.

Definition pip_fails : command := λ _ fs, (fs, 1%Z).

Definition pip_installs : command :=
  λ _ fs, (<[text "site-packages/fastapi/__init__.py" := []]> fs, 0%Z).

(** A request of the busy client 127.0.0.1 that names another address in
    its forwarded-for header. *)
Definition rotated_request : Request :=
  {| x_forwarded_for := Some (text "198.51.100.1");
     client_host := Some (text "127.0.0.1") |}.
(** * Properties *)

(** ** Model identifiers *)

Lemma validate_gpt_model_allowed (v : option str) :
  validate_gpt_model v ∈ allowed_models.
Proof.
  destruct v as [m|]; simpl.
  - case_bool_decide; [done|]. vm_compute. apply list_elem_of_here.
  - vm_compute. apply list_elem_of_here.
Qed.

(** C9. The model-id validator returns a requested identifier of the
    allow-list (gpt-3.5-turbo, gpt-4, gpt-4-turbo) unchanged, and
    gpt-3.5-turbo for every other one and for [None]; it has no error
    outcome, its result being a plain string. *)
Theorem validate_gpt_model_spec :
  allowed_models = [text "gpt-3.5-turbo"; text "gpt-4"; text "gpt-4-turbo"] ∧
  (∀ m : str, m ∈ allowed_models → validate_gpt_model (Some m) = m) ∧
  (∀ m : str, m ∉ allowed_models →
     validate_gpt_model (Some m) = text "gpt-3.5-turbo") ∧
  validate_gpt_model None = text "gpt-3.5-turbo".
Proof.
  split; [reflexivity|]. split; [|split; [|reflexivity]].
  - intros m Hm. simpl. by rewrite bool_decide_eq_true_2.
  - intros m Hm. simpl. by rewrite bool_decide_eq_false_2.
Qed.

Lemma validate_gpt_model_examples :
  validate_gpt_model (Some (text "gpt-4-turbo")) = text "gpt-4-turbo" ∧
  validate_gpt_model (Some (text "gpt-5")) = text "gpt-3.5-turbo".
Proof.
  destruct validate_gpt_model_spec as (_ & Hin & Hout & _). split.
  - apply Hin. apply (bool_decide_unpack _). vm_compute. exact I.
  - apply Hout. apply (bool_decide_unpack _). vm_compute. exact I.
Defined.

(** ** Item names *)

(** Boolean tests on code points, as propositions. *)
Ltac nprop :=
  repeat match goal with
  | H : _ && _ = true |- _ => apply andb_true_iff in H; destruct H
  | H : _ || _ = true |- _ => apply orb_true_iff in H; destruct H
  | H : _ && _ = false |- _ => apply andb_false_iff in H; destruct H
  | H : _ || _ = false |- _ => apply orb_false_iff in H; destruct H
  | H : negb _ = true |- _ => apply negb_true_iff in H
  | H : negb _ = false |- _ => apply negb_false_iff in H
  | H : (_ =? _) = true |- _ => apply N.eqb_eq in H
  | H : (_ =? _) = false |- _ => apply N.eqb_neq in H
  | H : (_ <=? _) = true |- _ => apply N.leb_le in H
  | H : (_ <=? _) = false |- _ => apply N.leb_gt in H
  end.

Ltac split_ifs :=
  repeat match goal with
  | |- context [if ?b then _ else _] => destruct b eqn:?
  | H : context [if ?b then _ else _] |- _ => destruct b eqn:?
  end.

Lemma match_here_one a r c t :
  match_here (One a :: r) (c :: t) = atom_match a c && match_here r t.
Proof. reflexivity. Qed.

Lemma match_here_one_nil a r : match_here (One a :: r) [] = false.
Proof. reflexivity. Qed.

Lemma re_search_cons r c t :
  re_search r (c :: t) = match_here r (c :: t) || re_search r t.
Proof. reflexivity. Qed.

(** Only the character [<] matches the literal [<]. *)
Lemma icase_match_less_than c : icase_match 60 c = true → c = 60.
Proof.
  unfold icase_match. change (re_tolower 60) with 60.
  unfold re_tolower, is_upper_ascii. intros H.
  split_ifs; nprop; lia.
Qed.

Lemma sanitize_no_forbidden v c : In c forbidden_chars → ¬ In c (sanitize v).
Proof.
  unfold sanitize, re_sub_class. intros Hc [_ Hkeep]%filter_In.
  apply negb_true_iff in Hkeep.
  assert (existsb (N.eqb c) forbidden_chars = true) as Hex; [|congruence].
  apply existsb_exists. exists c. split; [done|apply N.eqb_refl].
Qed.

(** A text without [<] holds no tag shape. *)
Lemma tag_shape_needs_less_than s : ¬ In 60 s → re_search tag_shape s = false.
Proof.
  induction s as [|c t IH]; intros Hno; [reflexivity|].
  rewrite re_search_cons. unfold tag_shape at 1. rewrite match_here_one.
  rewrite IH by (intros ?; apply Hno; by right).
  destruct (atom_match (Lit 60) c) eqn:Hm; [|reflexivity].
  apply icase_match_less_than in Hm. subst c. destruct Hno. by left.
Qed.

Lemma tag_shape_never_fires v : re_search tag_shape (sanitize v) = false.
Proof.
  apply tag_shape_needs_less_than, sanitize_no_forbidden. by left.
Qed.

(** C10. The item-name validator with the tag-shape pattern in its list and
    the validator without it give the same result on every input: the
    angle brackets are removed before the patterns are searched, so the tag
    shape matches no sanitised name. *)
Theorem validate_item_name_tag_shape_redundant (v : str) :
  validate_item_name v = validate_item_name_without_tag v.
Proof.
  unfold validate_item_name, validate_item_name_without_tag,
    validate_item_name_with.
  destruct (is_empty v || is_empty (strip v)); [reflexivity|].
  destruct (100 <? length (sanitize v))%nat; [reflexivity|].
  unfold suspicious_patterns, suspicious_patterns_without_tag.
  cbn [existsb]. rewrite tag_shape_never_fires. reflexivity.
Qed.

(** *** What the matcher computes *)

Lemma match_here_star a r s :
  match_here (Star a :: r) s =
  match_here r s ||
  match s with
  | c :: t => atom_match a c && match_here (Star a :: r) t
  | [] => false
  end.
Proof. destruct s; reflexivity. Qed.

Lemma match_here_plus a r c t :
  match_here (Plus a :: r) (c :: t) = atom_match a c && match_here (Star a :: r) t.
Proof. reflexivity. Qed.

Lemma match_here_plus_nil a r : match_here (Plus a :: r) [] = false.
Proof. reflexivity. Qed.

Lemma star_sound a r :
  (∀ s, match_here r s = true → ∃ m rest, s = m ++ rest ∧ matched r m) →
  ∀ s, match_here (Star a :: r) s = true →
    ∃ run m rest, s = (run ++ m) ++ rest ∧
      forallb (atom_match a) run = true ∧ matched r m.
Proof.
  intros IHr. induction s as [|c t IHt]; rewrite match_here_star; intros H.
  - rewrite orb_false_r in H. destruct (IHr _ H) as (m & rest & -> & Hm).
    by exists [], m, rest.
  - apply orb_true_iff in H as [H|H].
    + destruct (IHr _ H) as (m & rest & -> & Hm). by exists [], m, rest.
    + apply andb_true_iff in H as [Hc H].
      destruct (IHt H) as (run & m & rest & -> & Hrun & Hm).
      exists (c :: run), m, rest. split; [reflexivity|]. split; [|done].
      simpl. by rewrite Hc.
Qed.

Lemma match_here_sound r :
  ∀ s, match_here r s = true → ∃ m rest, s = m ++ rest ∧ matched r m.
Proof.
  induction r as [|[a|a|a] r IH]; intros s H.
  - by exists [], s.
  - destruct s as [|c t]; [done|]. rewrite match_here_one in H.
    apply andb_true_iff in H as [Hc H].
    destruct (IH _ H) as (m & rest & -> & Hm).
    exists (c :: m), rest. split; [reflexivity|]. simpl. eauto.
  - destruct (star_sound a r IH s H) as (run & m & rest & -> & Hrun & Hm).
    exists (run ++ m), rest. split; [reflexivity|]. simpl. eauto.
  - destruct s as [|c t]; [done|]. rewrite match_here_plus in H.
    apply andb_true_iff in H as [Hc H].
    destruct (star_sound a r IH t H) as (run & m & rest & -> & Hrun & Hm).
    exists (c :: run ++ m), rest. split; [reflexivity|]. simpl.
    exists c, run, m. eauto.
Qed.

Lemma star_complete a r run s :
  forallb (atom_match a) run = true →
  match_here r s = true →
  match_here (Star a :: r) (run ++ s) = true.
Proof.
  induction run as [|c run IH]; intros Hrun Hs; rewrite match_here_star.
  - cbn [app]. by rewrite Hs.
  - simpl in Hrun. apply andb_true_iff in Hrun as [Hc Hrun].
    cbn [app]. rewrite Hc, IH by done. apply orb_true_r.
Qed.

Lemma match_here_complete r :
  ∀ m rest, matched r m → match_here r (m ++ rest) = true.
Proof.
  induction r as [|[a|a|a] r IH]; intros m rest Hm.
  - reflexivity.
  - destruct Hm as (c & m' & -> & Hc & Hm). simpl app.
    rewrite match_here_one, Hc. simpl. by apply IH.
  - destruct Hm as (run & m' & -> & Hrun & Hm). rewrite <- app_assoc.
    apply star_complete; [done|]. by apply IH.
  - destruct Hm as (c & run & m' & -> & Hc & Hrun & Hm). simpl app.
    rewrite match_here_plus, Hc, <- app_assoc. simpl.
    apply star_complete; [done|]. by apply IH.
Qed.

Lemma re_search_nil r : re_search r [] = match_here r [] || false.
Proof. reflexivity. Qed.

(** A search succeeds exactly when some part of the text is matched. *)
Lemma re_search_matched r s :
  re_search r s = true ↔ ∃ pre m post, s = pre ++ m ++ post ∧ matched r m.
Proof.
  split.
  - induction s as [|c t IH].
    + rewrite re_search_nil, orb_false_r. intros H.
      destruct (match_here_sound _ _ H) as (m & rest & Hs & Hm).
      by exists [], m, rest.
    + rewrite re_search_cons. intros [H|H]%orb_true_iff.
      * destruct (match_here_sound _ _ H) as (m & rest & Hs & Hm).
        by exists [], m, rest.
      * destruct (IH H) as (pre & m & post & -> & Hm).
        by exists (c :: pre), m, post.
  - intros (pre & m & post & -> & Hm).
    induction pre as [|c pre IH].
    + simpl. destruct (m ++ post) eqn:E.
      * rewrite re_search_nil, <- E, match_here_complete by done. reflexivity.
      * rewrite re_search_cons, <- E, match_here_complete by done. reflexivity.
    + cbn [app]. rewrite re_search_cons, IH. apply orb_true_r.
Qed.

(** *** Matches of plain patterns survive the cleaning *)

Lemma plain_lit_match p c :
  plain_lit p = true → icase_match p c = true →
  isspace c = false ∧ kept c = true.
Proof.
  unfold plain_lit, icase_match, re_tolower, is_upper_ascii, isspace, kept,
    forbidden_chars.
  cbn [existsb]. intros Hp Hm.
  split_ifs; nprop; subst;
    (split;
     [ repeat (apply orb_false_iff; split);
       try apply andb_false_iff;
       rewrite ?N.eqb_neq, ?N.leb_gt; lia
     | apply negb_true_iff; repeat (apply orb_false_iff; split);
       rewrite ?N.eqb_neq; (lia || reflexivity) ]).
Qed.

Lemma isspace_kept c : isspace c = true → kept c = true.
Proof.
  unfold isspace, kept, forbidden_chars. cbn [existsb]. intros H.
  apply negb_true_iff; repeat (apply orb_false_iff; split);
    rewrite ?N.eqb_neq; try reflexivity; nprop; lia.
Qed.

Lemma plain_atom_kept a c :
  plain_atom a = true → atom_match a c = true → kept c = true.
Proof.
  destruct a as [p| |]; simpl; intros Ha Hc; [|done|].
  - by destruct (plain_lit_match p c Ha Hc).
  - by apply isspace_kept.
Qed.

Lemma forallb_kept a run :
  plain_atom a = true → forallb (atom_match a) run = true →
  forallb kept run = true.
Proof.
  intros Ha. induction run as [|c run IH]; [done|]. simpl.
  intros [Hc Hrun]%andb_true_iff.
  by rewrite (plain_atom_kept a c), IH.
Qed.

Lemma matched_kept r :
  forallb (λ p, plain_atom (atom_of p)) r = true →
  ∀ m, matched r m → forallb kept m = true.
Proof.
  induction r as [|[a|a|a] r IH]; simpl; intros Hr m Hm.
  - by subst.
  - apply andb_true_iff in Hr as [Ha Hr].
    destruct Hm as (c & m' & -> & Hc & Hm). simpl.
    by rewrite (plain_atom_kept a c), (IH Hr m').
  - apply andb_true_iff in Hr as [Ha Hr].
    destruct Hm as (run & m' & -> & Hrun & Hm).
    by rewrite forallb_app, (forallb_kept a run), (IH Hr m').
  - apply andb_true_iff in Hr as [Ha Hr].
    destruct Hm as (c & run & m' & -> & Hc & Hrun & Hm). simpl.
    by rewrite (plain_atom_kept a c), forallb_app, (forallb_kept a run), (IH Hr m').
Qed.

Lemma matched_first p r m :
  plain_lit p = true → matched (One (Lit p) :: r) m →
  ∃ c m', m = c :: m' ∧ isspace c = false.
Proof.
  intros Hp (c & m' & -> & Hc & _). exists c, m'. split; [done|].
  by destruct (plain_lit_match p c Hp Hc).
Qed.

Lemma matched_last p r :
  plain_lit p = true → ∀ m, matched (r ++ [One (Lit p)]) m →
  ∃ m' c, m = m' ++ [c] ∧ isspace c = false.
Proof.
  intros Hp. induction r as [|[a|a|a] r IH]; intros m Hm.
  - destruct Hm as (c & m' & -> & Hc & ->). exists [], c. split; [done|].
    by destruct (plain_lit_match p c Hp Hc).
  - destruct Hm as (c & m' & -> & _ & Hm).
    destruct (IH _ Hm) as (m0 & c0 & -> & Hc0). by exists (c :: m0), c0.
  - destruct Hm as (run & m' & -> & _ & Hm).
    destruct (IH _ Hm) as (m0 & c0 & -> & Hc0).
    exists (run ++ m0), c0. by rewrite <- app_assoc.
  - destruct Hm as (c & run & m' & -> & _ & _ & Hm).
    destruct (IH _ Hm) as (m0 & c0 & -> & Hc0).
    exists (c :: run ++ m0), c0. simpl. by rewrite <- app_assoc.
Qed.

(** A plain pattern matches texts that are kept whole by the sanitiser and
    that neither start nor end with whitespace. *)
Lemma plain_matched r m :
  plain r = true → matched r m →
  forallb kept m = true ∧
  (∃ c m', m = c :: m' ∧ isspace c = false) ∧
  (∃ m' c, m = m' ++ [c] ∧ isspace c = false).
Proof.
  unfold plain. intros [[Hall Hfirst]%andb_true_iff Hlast]%andb_true_iff Hm.
  split; [by eapply matched_kept|]. split.
  - destruct r as [|[[p| |]|?|?] r]; try done.
    simpl in Hfirst. eapply matched_first; eauto.
  - destruct (rev r) as [|[[p| |]|?|?] l] eqn:E; try done.
    assert (r = rev l ++ [One (Lit p)]) as ->.
    { rewrite <- (rev_involutive r), E. reflexivity. }
    simpl in Hlast. eapply matched_last; eauto.
Qed.

Lemma lstrip_keeps pre c m post :
  isspace c = false →
  ∃ pre', lstrip (pre ++ (c :: m) ++ post) = pre' ++ (c :: m) ++ post.
Proof.
  intros Hc. induction pre as [|x pre [pre' IH]].
  - exists []. simpl. by rewrite Hc.
  - simpl. destruct (isspace x).
    + by exists pre'.
    + by exists (x :: pre).
Qed.

Lemma strip_keeps pre m post :
  (∃ c m', m = c :: m' ∧ isspace c = false) →
  (∃ m' c, m = m' ++ [c] ∧ isspace c = false) →
  ∃ pre' post', strip (pre ++ m ++ post) = pre' ++ m ++ post'.
Proof.
  intros (c & m1 & Hhead & Hc) (m2 & d & Hlast & Hd).
  destruct (lstrip_keeps pre c m1 post Hc) as [pre' E].
  rewrite <- Hhead in E.
  assert (rev (pre' ++ m ++ post) = rev post ++ (d :: rev m2) ++ rev pre') as Erev.
  { rewrite Hlast, !rev_app_distr. simpl. by rewrite <- !app_assoc. }
  destruct (lstrip_keeps (rev post) d (rev m2) (rev pre') Hd) as [post' E'].
  exists pre', (rev post'). unfold strip, rstrip.
  rewrite E, Erev, E', Hlast, !rev_app_distr. simpl.
  rewrite !rev_involutive, <- !app_assoc. reflexivity.
Qed.

Lemma filter_kept m : forallb kept m = true → List.filter kept m = m.
Proof.
  induction m as [|c m IH]; [done|]. simpl.
  intros [Hc Hm]%andb_true_iff. by rewrite Hc, IH.
Qed.

(** A plain pattern found in the raw name is found in the cleaned name. *)
Lemma plain_search_sanitize r v :
  plain r = true → re_search r v = true → re_search r (sanitize v) = true.
Proof.
  intros Hr (pre & m & post & -> & Hm)%re_search_matched.
  destruct (plain_matched r m Hr Hm) as (Hkept & Hfirst & Hlast).
  destruct (strip_keeps pre m post Hfirst Hlast) as (pre' & post' & E).
  apply re_search_matched.
  exists (List.filter kept pre'), m, (List.filter kept post').
  split; [|done]. unfold sanitize, re_sub_class. rewrite E.
  change (λ c : N, negb (existsb (N.eqb c) forbidden_chars)) with kept.
  by rewrite !List.filter_app, (filter_kept m).
Qed.

Lemma without_tag_plain p :
  p ∈ suspicious_patterns_without_tag → plain p = true.
Proof.
  intros Hp%list_elem_of_In. revert p Hp. apply forallb_forall.
  vm_compute. reflexivity.
Qed.

Lemma without_tag_included p :
  p ∈ suspicious_patterns_without_tag → p ∈ suspicious_patterns.
Proof.
  unfold suspicious_patterns_without_tag, suspicious_patterns.
  rewrite !list_elem_of_In. simpl. intuition.
Qed.

Lemma none_found (patterns : list (list piece)) (s : str) :
  existsb (λ q, re_search q s) patterns = false ↔
  ∀ p, p ∈ patterns → re_search p s = false.
Proof.
  split.
  - intros Hex p Hp%list_elem_of_In. apply not_true_is_false. intros Hfound.
    assert (existsb (λ q, re_search q s) patterns = true); [|congruence].
    apply existsb_exists. eauto.
  - intros Hnone. apply not_true_is_false.
    intros (p & Hp%list_elem_of_In & Hfound)%existsb_exists.
    rewrite Hnone in Hfound; done.
Qed.

Lemma validate_item_name_result v s :
  validate_item_name v = Ok s → s = sanitize v.
Proof.
  unfold validate_item_name, validate_item_name_with.
  split_ifs; congruence.
Qed.

(** C1, as the code has it.  A raw item name fails validation whenever it
    contains a denylisted pattern other than the tag shape; a name whose
    cleaned form (trimmed, the characters < > double quote and single quote
    removed) is non-empty, at most 100 characters long and matches no
    denylisted pattern is accepted, and the result is that cleaned form.
    The four characters are removed from the name, they do not make it
    fail: an accepted name is returned without them. *)
Theorem validate_item_name_spec (v : str) :
  (∀ p, p ∈ suspicious_patterns_without_tag → re_search p v = true →
     ∃ e, validate_item_name v = Raise e) ∧
  (sanitize v ≠ [] → (length (sanitize v) ≤ 100)%nat →
     (∀ p, p ∈ suspicious_patterns → re_search p (sanitize v) = false) →
     validate_item_name v = Ok (sanitize v)) ∧
  (∀ s, validate_item_name v = Ok s →
     s = sanitize v ∧ ∀ c, c ∈ forbidden_chars → c ∉ s).
Proof.
  split; [|split].
  - intros p Hp Hfound.
    assert (existsb (λ q, re_search q (sanitize v)) suspicious_patterns = true) as Hex.
    { apply existsb_exists. exists p. split.
      - by apply list_elem_of_In, without_tag_included.
      - by apply plain_search_sanitize; [apply without_tag_plain|]. }
    unfold validate_item_name, validate_item_name_with. rewrite Hex.
    split_ifs; eauto.
  - intros Hne Hlen Hnone.
    unfold validate_item_name, validate_item_name_with.
    assert (is_empty v || is_empty (strip v) = false) as ->.
    { destruct v as [|c v]; [done|]. simpl.
      unfold sanitize in Hne. by destruct (strip (c :: v)). }
    assert ((100 <? length (sanitize v))%nat = false) as ->
      by (apply Nat.ltb_ge; lia).
    by rewrite (proj2 (none_found _ _) Hnone).
  - intros s ->%validate_item_name_result. split; [done|].
    intros c Hc%list_elem_of_In Hin%list_elem_of_In.
    by eapply sanitize_no_forbidden.
Qed.

(** The claim C1 as it is written fails: a name with an apostrophe holds a
    forbidden character, and is accepted, without the apostrophe. *)
Lemma validate_item_name_accepts_forbidden_character :
  ¬ (∀ v : str,
       (∃ c, c ∈ forbidden_chars ∧ c ∈ v) ∨
       (∃ p, p ∈ suspicious_patterns ∧ re_search p v = true) →
       ∃ e, validate_item_name v = Raise e).
Proof.
  intros H. destruct (H (text "Joe's Pizza")) as [e He].
  - left. exists 39. split; apply (bool_decide_unpack _); vm_compute; exact I.
  - vm_compute in He. discriminate.
Qed.

(** The same for the tag shape: a name in angle brackets matches it, and is
    accepted, without the brackets. *)
Example validate_item_name_accepts_tag :
  re_search tag_shape (text "<b>Soup</b>") = true ∧
  validate_item_name (text "<b>Soup</b>") = Ok (text "bSoup/b").
Proof. split; vm_compute; reflexivity. Qed.

Lemma validate_item_name_spec_examples :
  (∃ e, validate_item_name (text "JavaScript pie") = Raise e) ∧
  validate_item_name (text " Joe's Pizza ") = Ok (text "Joes Pizza") ∧
  39 ∉ text "Joes Pizza".
Proof.
  split; [|split].
  - apply (proj1 (validate_item_name_spec (text "JavaScript pie"))
             (literal "javascript")).
    + apply list_elem_of_In. right. left. reflexivity.
    + vm_compute. reflexivity.
  - apply (proj1 (proj2 (validate_item_name_spec (text " Joe's Pizza ")))).
    + vm_compute. discriminate.
    + vm_compute. lia.
    + apply none_found. vm_compute. reflexivity.
  - apply (proj2 (proj2 (validate_item_name_spec (text " Joe's Pizza ")))
             (text "Joes Pizza")).
    + vm_compute. reflexivity.
    + apply (bool_decide_unpack _). vm_compute. exact I.
Defined.

(** ** The keyword classifier *)

Lemma find_first {A} (f : A → bool) (before : list A) (x : A) (after : list A) :
  (∀ b, b ∈ before → f b = false) → f x = true →
  List.find f (before ++ x :: after) = Some x.
Proof.
  intros Hbefore Hx. induction before as [|b before IH]; simpl.
  - by rewrite Hx.
  - rewrite (Hbefore b) by apply list_elem_of_here.
    apply IH. intros b' Hb'. apply Hbefore. by apply list_elem_of_further.
Qed.

(** The chain of tests of the classifier picks the first category of the
    fixed order. *)
Lemma get_simulate_response_first (item_name : str) :
  get_simulate_response item_name =
  response_of (first_category item_name) item_name.
Proof.
  unfold get_simulate_response, first_category, category_order.
  cbn [List.find]. by split_ifs.
Qed.

(** C6. The classifier is a function of the item name alone, defined on
    every name.  Its answer is the one of the first category, in the order
    Italian, burger, Indian, sushi, salad, dessert, drink, whose keywords
    occur in the lower-cased name, and the default answer when none does:
    a category with a keyword in the name wins when no category before it
    has one, so that the name pizza bowl, which has a salad keyword too,
    gets the Italian answer.  The description is the item name as it was
    given, not lower-cased, followed by the text of the category. *)
Theorem get_simulate_response_first_match (item_name : str) :
  (∀ other, other = item_name →
     get_simulate_response other = get_simulate_response item_name) ∧
  get_simulate_response item_name =
    response_of (first_category item_name) item_name ∧
  (∀ before c after, category_order = before ++ c :: after →
     any_in (keywords c) (lower item_name) = true →
     (∀ b, b ∈ before → any_in (keywords b) (lower item_name) = false) →
     get_simulate_response item_name = response_of c item_name) ∧
  ai_description (get_simulate_response item_name) =
    item_name ++ description_tail (first_category item_name) ∧
  (any_in (keywords Salad) (lower (text "pizza bowl")) = true ∧
   get_simulate_response (text "pizza bowl") =
     response_of Italian (text "pizza bowl")).
Proof.
  pose proof (get_simulate_response_first item_name) as Hfirst.
  split; [by intros ? ->|]. split; [done|]. split; [|split].
  - intros before c after Horder Hc Hbefore. rewrite Hfirst.
    unfold first_category. rewrite Horder.
    by rewrite (find_first _ before c after Hbefore Hc).
  - by rewrite Hfirst.
  - split; vm_compute; reflexivity.
Qed.

Lemma get_simulate_response_examples :
  get_simulate_response (text "Ice Cream Roll") =
    response_of Sushi (text "Ice Cream Roll") ∧
  ai_description (get_simulate_response (text "Margherita Pizza")) =
    text "Margherita Pizza" ++ description_tail Italian.
Proof.
  split.
  - apply (proj1 (proj2 (proj2 (get_simulate_response_first_match _)))
             [Italian; Burger; Indian] Sushi [Salad; Dessert; Drink]).
    + reflexivity.
    + vm_compute. reflexivity.
    + intros b Hb. apply list_elem_of_In in Hb. simpl in Hb.
      destruct Hb as [<-|[<-|[<-|[]]]]; vm_compute; reflexivity.
  - rewrite (proj1 (proj2 (proj2 (proj2 (get_simulate_response_first_match _))))).
    vm_compute. reflexivity.
Defined.

(** ** The request handler *)

(** C8. A request whose item name fails validation ends with a client
    error before anything else runs: the answer is the error, the
    rate-limit store is the one before the request, and no call to the model
    has been added. *)
Theorem invalid_item_name_no_effects (json_loads : str → result pyval)
    (openai_client : option chat_client) (current_time : Q) (now_iso : str)
    (w : world) (body : RequestBody) (client_request : Request) (e : exn) :
  validate_item_name (body_item_name body) = Raise e →
  ∃ w' status detail,
    post_generate_item_details json_loads openai_client current_time now_iso
      w body client_request = (w', Raise (HTTPException status detail)) ∧
    (400 ≤ status < 500)%Z ∧
    rate_limit_store w' = rate_limit_store w ∧
    model_calls w' = model_calls w.
Proof.
  intros He. exists w, 422%Z, (exn_str e).
  unfold post_generate_item_details, parse_request. rewrite He. simpl.
  repeat split; lia.
Qed.

Lemma invalid_item_name_example :
  ∃ w' status detail,
    post_generate_item_details json_loads_sample (Some client_timeout) 0 (text "t")
      empty_world script_body direct_request =
    (w', Raise (HTTPException status detail)) ∧
    (400 ≤ status < 500)%Z ∧
    rate_limit_store w' = ∅ ∧
    model_calls w' = [].
Proof.
  apply (invalid_item_name_no_effects json_loads_sample (Some client_timeout)
           0 (text "t") empty_world script_body direct_request
           (ValueError (text "Invalid characters detected in item name"))).
  vm_compute. reflexivity.
Defined.

(** C5. For a validated request that reaches the model call (the client
    address is known, the rate limiter admits the request, simulate is off
    and a client is configured), a failure of the model call is not an error
    of the request: the answer is a response tagged fallback whose
    description and upsell are those of the classifier for the item name. *)
Theorem model_failure_absorbed (json_loads : str → result pyval)
    (client : chat_client) (current_time : Q) (now_iso : str)
    (w : world) (request : MenuItemRequest) (client_request : Request)
    (client_ip : str) (store : gmap str (list Q)) (e : exn) :
  get_client_ip client_request = Ok client_ip →
  check_rate_limit (rate_limit_store w) current_time client_ip 10 60 = (store, true) →
  default false (simulate request) = false →
  client (gpt_model request) create_system_prompt
    (create_user_prompt (item_name request)) = Raise e →
  ∃ w',
    generate_item_details json_loads (Some client) current_time now_iso
      w request client_request =
    (w', Ok {| description := ai_description (get_simulate_response (item_name request));
               upsell_suggestion :=
                 ai_upsell_suggestion (get_simulate_response (item_name request));
               generated_at := now_iso;
               model_used := text "fallback" |}).
Proof.
  intros Hip Hrate Hsim Hcall.
  unfold generate_item_details. rewrite Hip, Hrate, Hsim. simpl.
  unfold call_model. rewrite Hcall. simpl. eauto.
Qed.

Lemma model_failure_example :
  ∃ w',
    generate_item_details json_loads_sample (Some client_timeout) 0 (text "t")
      empty_world pizza_request direct_request =
    (w', Ok {| description := ai_description (get_simulate_response (text "Margherita Pizza"));
               upsell_suggestion :=
                 ai_upsell_suggestion (get_simulate_response (text "Margherita Pizza"));
               generated_at := text "t";
               model_used := text "fallback" |}).
Proof.
  eapply (model_failure_absorbed json_loads_sample client_timeout 0 (text "t")
           empty_world pizza_request direct_request).
  - reflexivity.
  - reflexivity.
  - reflexivity.
  - reflexivity.
Defined.

(** ** Rate limiting *)


(** The call in one step: the list of the client is pruned, and the time of
    the call is added when fewer than [limit] times are left. *)
Lemma check_rate_limit_eq store current_time client_ip limit window :
  check_rate_limit store current_time client_ip limit window =
  let recent :=
    List.filter (in_window current_time window) (default [] (store !! client_ip)) in
  if (limit <=? Z.of_nat (length recent))%Z
  then (<[client_ip := recent]> store, false)
  else (<[client_ip := recent ++ [current_time]]> store, true).
Proof.
  unfold check_rate_limit.
  destruct (store !! client_ip) as [l|] eqn:E; simpl.
  - rewrite E. simpl. by rewrite insert_insert_eq.
  - rewrite lookup_insert_eq. simpl. by rewrite !insert_insert_eq.
Qed.

Lemma filter_shorter {A} (f : A → bool) (l : list A) :
  (length (List.filter f l) ≤ length l)%nat.
Proof.
  induction l as [|x l IH]; simpl; [lia|]. destruct (f x); simpl; lia.
Qed.


(** No client ever has more than [limit] times on record. *)
Lemma reachable_bounded limit window store :
  reachable limit window store →
  ∀ client_ip l, store !! client_ip = Some l →
    (Z.of_nat (length l) ≤ Z.max limit 0)%Z.
Proof.
  induction 1 as [|store current_time ip Hreach IH]; intros client_ip l Hl.
  - by rewrite lookup_empty in Hl.
  - rewrite check_rate_limit_eq in Hl. cbn zeta in Hl.
    set (recent := List.filter _ _) in Hl.
    assert (Z.of_nat (length recent) ≤ Z.max limit 0)%Z as Hrecent.
    { subst recent. destruct (store !! ip) as [l0|] eqn:E; simpl; [|lia].
      pose proof (IH _ _ E). pose proof (filter_shorter (in_window current_time window) l0).
      lia. }
    destruct (limit <=? Z.of_nat (length recent))%Z eqn:Hcmp; simpl in Hl.
    + destruct (decide (ip = client_ip)) as [->|Hne].
      * rewrite lookup_insert_eq in Hl. by injection Hl as <-.
      * rewrite lookup_insert_ne in Hl by done. eauto.
    + apply Z.leb_gt in Hcmp.
      destruct (decide (ip = client_ip)) as [->|Hne].
      * rewrite lookup_insert_eq in Hl. injection Hl as <-.
        rewrite length_app. simpl. lia.
      * rewrite lookup_insert_ne in Hl by done. eauto.
Qed.

Lemma reachable_after_calls limit window client_ip times store :
  reachable limit window store →
  reachable limit window (after_calls limit window client_ip times store).
Proof.
  revert store. induction times as [|t times IH]; intros store Hstore; [done|].
  apply IH. by constructor.
Qed.



(** ** The response repairer *)

Lemma cap_length limit keep s :
  (keep + 3 ≤ limit)%nat → (length (cap limit keep s) ≤ limit)%nat.
Proof.
  intros Hkeep. unfold cap. destruct (limit <? length s)%nat eqn:E.
  - rewrite length_app, length_take. simpl. lia.
  - apply Nat.ltb_ge in E. lia.
Qed.

Lemma cap_long limit keep s :
  (limit < length s)%nat → (keep ≤ limit)%nat →
  cap limit keep s = take keep s ++ text "..." ∧
  length (cap limit keep s) = (keep + 3)%nat.
Proof.
  intros Hlong Hkeep. unfold cap.
  rewrite (proj2 (Nat.ltb_lt _ _) Hlong). split; [done|].
  rewrite length_app, length_take. simpl. lia.
Qed.

(** What the structured path returns, when it returns. *)
Lemma parse_structured_ok json_loads response_text r :
  parse_structured json_loads response_text = Ok r →
  ∃ d description upsell,
    json_loads (strip response_text) = Ok (PDict d) ∧
    d !! text "description" = Some (PStr description) ∧
    d !! text "upsell_suggestion" = Some (PStr upsell) ∧
    description ≠ [] ∧ upsell ≠ [] ∧
    r = {| ai_description := cap 150 147 (strip description);
           ai_upsell_suggestion := cap 100 97 (strip upsell) |}.
Proof.
  unfold parse_structured. intros H.
  destruct (json_loads (strip response_text)) as [parsed|]; [|done].
  destruct parsed as [| | | | |?|d]; try done. simpl in H.
  destruct (d !! text "description") as [[| | | |description| |]|] eqn:Ed;
    simpl in H; try done; split_ifs; try done.
  all: destruct (d !! text "upsell_suggestion") as [[| | | |upsell| |]|] eqn:Eu;
    simpl in H; try done; split_ifs; try done.
  injection H as <-. exists d, description, upsell.
  repeat split; try done.
  - by destruct description.
  - by destruct upsell.
Qed.

Lemma validate_ai_response_structured json_loads response_text r :
  parse_structured json_loads response_text = Ok r →
  validate_ai_response json_loads response_text = Ok r.
Proof. unfold validate_ai_response. by intros ->. Qed.

(** Either path caps the description at 150 characters; the structured
    path caps the upsell at 100. *)
Lemma validate_ai_response_description json_loads response_text r :
  validate_ai_response json_loads response_text = Ok r →
  (length (ai_description r) ≤ 150)%nat.
Proof.
  unfold validate_ai_response.
  destruct (parse_structured json_loads response_text) as [r'|e] eqn:E.
  - intros [= <-]. apply parse_structured_ok in E as (?&?&?&_&_&_&_&_&->).
    simpl. apply cap_length. lia.
  - intros H.
    assert (r = parse_fallback response_text) as ->
      by (destruct e; congruence).
    unfold parse_fallback. simpl. apply cap_length. lia.
Qed.

Lemma parse_structured_upsell json_loads response_text r :
  parse_structured json_loads response_text = Ok r →
  (length (ai_upsell_suggestion r) ≤ 100)%nat.
Proof.
  intros (?&?&?&_&_&_&_&_&->)%parse_structured_ok. simpl.
  apply cap_length. lia.
Qed.

(** C3 fails on the code, in three ways.  An answer that is JSON but not an
    object makes the repairer raise [AttributeError], which its [except]
    clause does not take.  A description made of whitespace passes the test
    on the field and is returned empty.  The fallback path returns the upsell
    line at its full length: the 120-letter second line of [two_lines] is
    returned whole. *)
Theorem validate_ai_response_not_total (json_loads : str → result pyval)
    (response_text : str) :
  (∀ v, json_loads (strip response_text) = Ok v → (∀ d, v ≠ PDict d) →
     validate_ai_response json_loads response_text = Raise (no_attribute v "get")) ∧
  (∀ d description upsell,
     json_loads (strip response_text) = Ok (PDict d) →
     d !! text "description" = Some (PStr description) →
     d !! text "upsell_suggestion" = Some (PStr upsell) →
     description ≠ [] → strip description = [] → upsell ≠ [] →
     ∃ r, validate_ai_response json_loads response_text = Ok r ∧
          ai_description r = []) ∧
  (∀ msg, json_loads (strip two_lines) = Raise (JSONDecodeError msg) →
     ∃ r, validate_ai_response json_loads two_lines = Ok r ∧
          length (ai_upsell_suggestion r) = 120%nat).
Proof.
  split; [|split].
  - intros v Hv Hnot. unfold validate_ai_response, parse_structured.
    rewrite Hv. simpl. destruct v; try reflexivity. by destruct (Hnot d).
  - intros d description upsell Hd Hdesc Hup Hne Hblank Hune.
    unfold validate_ai_response, parse_structured.
    rewrite Hd. simpl. rewrite Hdesc, Hup. simpl.
    destruct description; [done|]. destruct upsell; [done|]. simpl.
    rewrite Hblank. eauto.
  - intros msg Hbad. unfold validate_ai_response, parse_structured.
    rewrite Hbad. simpl. eexists. split; [reflexivity|].
    vm_compute. reflexivity.
Qed.

Lemma validate_ai_response_failures :
  validate_ai_response json_loads_sample (text "[]") =
    Raise (AttributeError (text "'list' object has no attribute 'get'")) ∧
  (∃ r, validate_ai_response json_loads_sample blank_json = Ok r ∧
        ai_description r = []) ∧
  (∃ r, validate_ai_response json_loads_sample two_lines = Ok r ∧
        length (ai_upsell_suggestion r) = 120%nat).
Proof.
  split; [|split].
  - apply (proj1 (validate_ai_response_not_total json_loads_sample (text "[]"))
             (PList [])).
    + vm_compute. reflexivity.
    + intros d. discriminate.
  - apply (proj1 (proj2 (validate_ai_response_not_total json_loads_sample blank_json))
             (fields_of (text " ") (text "x")) (text " ") (text "x")).
    + vm_compute. reflexivity.
    + vm_compute. reflexivity.
    + vm_compute. reflexivity.
    + discriminate.
    + vm_compute. reflexivity.
    + discriminate.
  - apply (proj2 (proj2 (validate_ai_response_not_total json_loads_sample two_lines))
             (text "Expecting value: line 1 column 1 (char 0)")).
    vm_compute. reflexivity.
Defined.

(** C7, as the code has it.  The structured path trims the description
    before it measures it: when the description the model returned has 200
    characters once trimmed (a description of 200 characters with no
    whitespace at its ends, for one), the description of the result has
    exactly 150 characters, the first 147 of the trimmed description followed
    by three dots. *)
Theorem structured_description_truncated (json_loads : str → result pyval)
    (response_text : str) (d : gmap str pyval) (description : str)
    (r : ai_response) :
  json_loads (strip response_text) = Ok (PDict d) →
  d !! text "description" = Some (PStr description) →
  parse_structured json_loads response_text = Ok r →
  length (strip description) = 200%nat →
  validate_ai_response json_loads response_text = Ok r ∧
  ai_description r = take 147 (strip description) ++ text "..." ∧
  length (ai_description r) = 150%nat.
Proof.
  intros Hd Hdesc Hr Hlen.
  split; [by apply validate_ai_response_structured|].
  apply parse_structured_ok in Hr as (d' & description' & upsell & Hd' & Hdesc' & _ & _ & _ & ->).
  rewrite Hd in Hd'. injection Hd' as <-.
  rewrite Hdesc in Hdesc'. injection Hdesc' as <-. simpl.
  apply cap_long; lia.
Qed.

Lemma structured_description_example :
  validate_ai_response json_loads_sample long_json =
    Ok {| ai_description := replicate 147 97 ++ text "...";
          ai_upsell_suggestion := text "x" |} ∧
  ai_description {| ai_description := replicate 147 97 ++ text "...";
                    ai_upsell_suggestion := text "x" |} =
    take 147 (strip long_description) ++ text "..." ∧
  length (ai_description {| ai_description := replicate 147 97 ++ text "...";
                            ai_upsell_suggestion := text "x" |}) = 150%nat.
Proof.
  apply (structured_description_truncated json_loads_sample long_json
           (fields_of long_description (text "x")) long_description).
  - vm_compute. reflexivity.
  - vm_compute. reflexivity.
  - vm_compute. reflexivity.
  - vm_compute. reflexivity.
Defined.

(** The claim C7 as it is written fails: a description of 200 characters
    that begins with 60 spaces is trimmed to 140 characters, and returned
    without dots. *)
Lemma padded_description_not_truncated :
  ¬ (∀ (json_loads : str → result pyval) (response_text : str)
       (d : gmap str pyval) (description : str) (r : ai_response),
       json_loads (strip response_text) = Ok (PDict d) →
       d !! text "description" = Some (PStr description) →
       parse_structured json_loads response_text = Ok r →
       length description = 200%nat →
       ai_description r = take 147 description ++ text "..." ∧
       length (ai_description r) = 150%nat).
Proof.
  intros H.
  destruct (H json_loads_sample padded_json
              (fields_of padded_description (text "x")) padded_description
              {| ai_description := replicate 140 97;
                 ai_upsell_suggestion := text "x" |}) as [_ Hlen];
    try (vm_compute; reflexivity).
  vm_compute in Hlen. discriminate.
Qed.

(** ** The responses of the pipeline *)

Lemma validate_item_name_length v s :
  validate_item_name v = Ok s → (length s ≤ 100)%nat.
Proof.
  unfold validate_item_name, validate_item_name_with.
  destruct (is_empty v || is_empty (strip v)); [done|].
  destruct (100 <? length (sanitize v))%nat eqn:E; [done|].
  apply Nat.ltb_ge in E. split_ifs; [done|]. by intros [= <-].
Qed.

Lemma description_tail_length c : (length (description_tail c) ≤ 89)%nat.
Proof. destruct c; vm_compute; lia. Qed.

Lemma upsell_of_length c : (length (upsell_of c) ≤ 47)%nat.
Proof. destruct c; vm_compute; lia. Qed.

(** The two ways the handler answers with a response: the repaired answer
    of the model, under the model of the request, or the answer of the
    classifier, tagged simulate or fallback. *)
Lemma generate_item_details_ok json_loads openai_client current_time now_iso
    w request client_request w' r :
  generate_item_details json_loads openai_client current_time now_iso
    w request client_request = (w', Ok r) →
  (∃ client content validated,
     openai_client = Some client ∧
     client (gpt_model request) create_system_prompt
       (create_user_prompt (item_name request)) = Ok content ∧
     validate_ai_response json_loads (strip content) = Ok validated ∧
     r = {| description := ai_description validated;
            upsell_suggestion := ai_upsell_suggestion validated;
            generated_at := now_iso;
            model_used := gpt_model request |}) ∨
  (r = simulate_response now_iso request "simulate" ∨
   r = simulate_response now_iso request "fallback").
Proof.
  unfold generate_item_details.
  destruct (get_client_ip client_request) as [client_ip|]; [|by intros [= _ ?]].
  destruct (check_rate_limit _ _ _ _ _) as [store [|]]; simpl; [|by intros [= _ ?]].
  destruct (default false (simulate request)); [intros [= _ <-]; auto|].
  destruct openai_client as [client|]; [|intros [= _ <-]; auto].
  destruct (call_model json_loads client now_iso request) as [response|] eqn:E;
    [|intros [= _ <-]; auto].
  intros [= _ <-]. left. unfold call_model in E.
  destruct (client _ _ _) as [content|] eqn:Ec; [|done]. simpl in E.
  destruct (validate_ai_response _ _) as [validated|] eqn:Ev; [|done].
  injection E as <-. by exists client, content, validated.
Qed.

(** C4, as the code has it.  Every response of the pipeline has
    [model_used] equal to the model of the validated request, to simulate or
    to fallback.  A response under the model of the request is the repaired
    answer of the model: its description has at most 150 characters, and its
    upsell at most 100 when the answer was read on the structured path.  A
    response tagged simulate or fallback is the answer of the classifier: its
    upsell has at most 47 characters, and its description is the validated
    item name followed by the text of its category, which adds up to 89
    characters to a name of up to 100, so it has at most 189 characters. *)
Theorem item_response_bounds (json_loads : str → result pyval)
    (openai_client : option chat_client) (current_time : Q) (now_iso : str)
    (w : world) (body : RequestBody) (client_request : Request)
    (w' : world) (r : MenuItemResponse) :
  post_generate_item_details json_loads openai_client current_time now_iso
    w body client_request = (w', Ok r) →
  ∃ request, parse_request body = Ok request ∧
  ((model_used r = gpt_model request ∧
    gpt_model request = validate_gpt_model (body_gpt_model body) ∧
    (length (description r) ≤ 150)%nat ∧
    ∃ client content,
      openai_client = Some client ∧
      client (gpt_model request) create_system_prompt
        (create_user_prompt (item_name request)) = Ok content ∧
      ∀ validated, parse_structured json_loads (strip content) = Ok validated →
        (length (upsell_suggestion r) ≤ 100)%nat) ∨
   ((model_used r = text "simulate" ∨ model_used r = text "fallback") ∧
    description r =
      item_name request ++ description_tail (first_category (item_name request)) ∧
    upsell_suggestion r = upsell_of (first_category (item_name request)) ∧
    (length (item_name request) ≤ 100)%nat ∧
    (length (description r) ≤ 189)%nat ∧
    (length (upsell_suggestion r) ≤ 47)%nat)).
Proof.
  unfold post_generate_item_details.
  destruct (parse_request body) as [request|] eqn:Hreq; [|by intros [= _ ?]].
  intros H. exists request. split; [done|].
  unfold parse_request in Hreq.
  destruct (validate_item_name (body_item_name body)) as [name|] eqn:Hname; [|done].
  injection Hreq as <-. simpl in *.
  apply generate_item_details_ok in H
    as [(client & content & validated & -> & Hcall & Hvalid & ->)|Hsim]; simpl in *.
  - left. split; [done|]. split; [done|]. split.
    + by eapply validate_ai_response_description.
    + exists client, content. split; [done|]. split; [done|].
      intros validated' Hs.
      rewrite (validate_ai_response_structured _ _ _ Hs) in Hvalid.
      injection Hvalid as <-. by eapply parse_structured_upsell.
  - right.
    pose proof (validate_item_name_length _ _ Hname) as Hlen.
    pose proof (description_tail_length (first_category name)) as Htail.
    pose proof (upsell_of_length (first_category name)) as Hup.
    pose proof (get_simulate_response_first name) as Hfirst.
    assert (description r = name ++ description_tail (first_category name) ∧
            upsell_suggestion r = upsell_of (first_category name) ∧
            (model_used r = text "simulate" ∨ model_used r = text "fallback"))
      as (Hd & Hu & Htag).
    { destruct Hsim as [->| ->]; unfold simulate_response; simpl;
        rewrite Hfirst; auto. }
    split; [done|]. rewrite Hd, Hu, length_app. repeat split; try done; lia.
Qed.

Lemma item_response_example :
  ∃ w' r,
    post_generate_item_details json_loads_sample None 0 (text "t")
      empty_world long_name_body direct_request = (w', Ok r) ∧
    model_used r = text "simulate" ∧
    (length (description r) ≤ 189)%nat ∧
    (length (upsell_suggestion r) ≤ 47)%nat.
Proof.
  pose (out := post_generate_item_details json_loads_sample None 0 (text "t")
                 empty_world long_name_body direct_request).
  pose (r := simulate_response (text "t") long_name_request "simulate").
  assert (post_generate_item_details json_loads_sample None 0 (text "t")
            empty_world long_name_body direct_request = (out.1, Ok r)) as Hout
    by (vm_compute; reflexivity).
  exists out.1, r. split; [exact Hout|].
  destruct (item_response_bounds json_loads_sample None 0 (text "t")
              empty_world long_name_body direct_request out.1 r Hout)
    as (request & _ & [(_ & _ & _ & client & _ & Hnone & _)|(_ & _ & _ & _ & Hd & Hu)]).
  - discriminate Hnone.
  - split; [reflexivity|]. split; [exact Hd|exact Hu].
Defined.

(** The claim C4 as it is written fails: in simulate mode, a valid item
    name of 100 letters gets a description of 178 characters. *)
Lemma simulate_description_exceeds_cap :
  ¬ (∀ (json_loads : str → result pyval) (openai_client : option chat_client)
       (current_time : Q) (now_iso : str) (w : world) (body : RequestBody)
       (client_request : Request) (w' : world) (r : MenuItemResponse),
       post_generate_item_details json_loads openai_client current_time now_iso
         w body client_request = (w', Ok r) →
       (length (description r) ≤ 150)%nat ∧
       (length (upsell_suggestion r) ≤ 100)%nat ∧
       (model_used r = validate_gpt_model (body_gpt_model body) ∨
        model_used r = text "simulate" ∨ model_used r = text "fallback")).
Proof.
  intros H.
  pose (out := post_generate_item_details json_loads_sample None 0 (text "t")
                 empty_world long_name_body direct_request).
  destruct (H json_loads_sample None 0%Q (text "t") empty_world long_name_body
              direct_request out.1
              (simulate_response (text "t") long_name_request "simulate"))
    as [Hlen _].
  - vm_compute. reflexivity.
  - vm_compute in Hlen. lia.
Qed.

Example simulate_description_length :
  length (description (simulate_response (text "t") long_name_request "simulate"))
  = 178%nat.
Proof. vm_compute. reflexivity. Qed.

(** * Further properties of the code *)

(** ** The rate limiter *)

Lemma in_window_true current_time window t :
  in_window current_time window t = true ↔
  (current_time - t < inject_Z window)%Q.
Proof.
  unfold in_window. rewrite negb_true_iff. split.
  - intros H. apply Qnot_le_lt. intros Hle.
    apply Qle_bool_iff in Hle. congruence.
  - intros H. apply not_true_is_false. intros Hle%Qle_bool_iff.
    by apply Qlt_not_le in H.
Qed.

Lemma filter_all {A} (f : A → bool) (l : list A) :
  Forall (λ x, f x = true) l → List.filter f l = l.
Proof.
  induction 1 as [|x l Hx _ IH]; simpl; [done|]. by rewrite Hx, IH.
Qed.

Lemma filter_twice {A} (f : A → bool) (l : list A) :
  List.filter f (List.filter f l) = List.filter f l.
Proof.
  apply filter_all, Forall_forall. intros x Hx%list_elem_of_In.
  by apply filter_In in Hx as [_ Hx].
Qed.




(** X2. After a call with a positive window, whatever the store before
    and whatever the answer, every time on record for the calling client is
    less than [window] seconds before the time of the call: what is older
    has been dropped. *)
Theorem check_rate_limit_prunes (limit window : Z) (store : gmap str (list Q))
    (current_time : Q) (client_ip : str) :
  (0 < window)%Z →
  ∃ l, (check_rate_limit store current_time client_ip limit window).1 !! client_ip
         = Some l ∧
       Forall (λ t, (current_time - t < inject_Z window)%Q) l.
Proof.
  intros Hwindow. rewrite check_rate_limit_eq. cbn zeta.
  set (recent := List.filter _ _).
  assert (Forall (λ t, (current_time - t < inject_Z window)%Q) recent) as Hrecent.
  { apply Forall_forall. intros t Ht%list_elem_of_In.
    apply filter_In in Ht as [_ Ht]. by apply in_window_true. }
  destruct (limit <=? Z.of_nat (length recent))%Z; cbn [fst];
    rewrite lookup_insert_eq; eexists; (split; [reflexivity|]); [done|].
  apply Forall_app. split; [done|]. apply Forall_singleton.
  assert (current_time - current_time == 0)%Q as -> by ring.
  unfold Qlt. simpl. lia.
Qed.

Lemma check_rate_limit_prunes_example :
  ∃ l, (check_rate_limit ten_calls 65 (text "10.0.0.7") 10 60).1 !! text "10.0.0.7"
         = Some l ∧
       Forall (λ t, (65 - t < inject_Z 60)%Q) l.
Proof.
  apply (check_rate_limit_prunes 10 60 ten_calls 65 (text "10.0.0.7")). lia.
Defined.

(** X3. A call never removes a client from the store: the clients on
    record after it are those on record before it and the caller, refused
    or not. *)
Theorem check_rate_limit_keeps_clients (limit window : Z)
    (store : gmap str (list Q)) (current_time : Q) (client_ip : str) :
  dom (check_rate_limit store current_time client_ip limit window).1 =
  {[client_ip]} ∪ dom store.
Proof.
  rewrite check_rate_limit_eq. cbn zeta.
  destruct (_ <=? _)%Z; cbn [fst]; apply dom_insert_L.
Qed.

(** X4. However many calls are made, with one limit and window, no client
    ever has more than [limit] times on record (none, if the limit is
    negative). *)
Theorem rate_limit_store_bounded (limit window : Z) (store : gmap str (list Q))
    (client_ip : str) (l : list Q) :
  reachable limit window store →
  store !! client_ip = Some l →
  (Z.of_nat (length l) ≤ Z.max limit 0)%Z.
Proof. intros Hreach Hl. by eapply reachable_bounded. Qed.

Lemma rate_limit_store_bounded_example :
  (Z.of_nat (length (replicate 10 0%Q)) ≤ Z.max 10 0)%Z.
Proof.
  apply (rate_limit_store_bounded 10 60
           (after_calls 10 60 (text "10.0.0.7") (replicate 25 0%Q) ∅)
           (text "10.0.0.7") (replicate 10 0%Q)).
  - apply reachable_after_calls, reachable_start.
  - vm_compute. reflexivity.
Defined.

Lemma in_time_order_filter (f : Q → bool) (l : list Q) :
  in_time_order l → in_time_order (List.filter f l).
Proof.
  induction l as [|t l IH]; [done|]. intros [Ht Hl]. simpl.
  destruct (f t); [|by apply IH]. split; [|by apply IH].
  apply Forall_forall. intros t' Ht'%list_elem_of_In.
  apply filter_In in Ht' as [Ht' _].
  by apply (proj1 (Forall_forall _ _) Ht), list_elem_of_In.
Qed.

Lemma in_time_order_snoc (l : list Q) (t : Q) :
  in_time_order l → Forall (λ t0, (t0 <= t)%Q) l → in_time_order (l ++ [t]).
Proof.
  induction l as [|t0 l IH]; intros Hl Hle; [done|].
  destruct Hl as [Ht0 Hl]. apply Forall_cons in Hle as [Ht0t Hle].
  split; [|by apply IH].
  apply Forall_app. split; [done|]. by apply Forall_singleton.
Qed.

Lemma reachable_at_ordered limit window t store :
  reachable_at limit window t store →
  ∀ client_ip l, store !! client_ip = Some l →
    in_time_order l ∧ Forall (λ t0, (t0 <= t)%Q) l.
Proof.
  induction 1 as [|t store t' ip Hreach IH Hclock]; intros client_ip l Hl.
  - by rewrite lookup_empty in Hl.
  - assert (∀ ip0 l0, store !! ip0 = Some l0 →
              in_time_order l0 ∧ Forall (λ t0, (t0 <= t')%Q) l0) as IH'.
    { intros ip0 l0 Hl0. destruct (IH _ _ Hl0) as [Hord Hle]. split; [done|].
      eapply Forall_impl; [exact Hle|]. intros t0 Ht0. simpl in *.
      by eapply Qle_trans. }
    rewrite check_rate_limit_eq in Hl. cbn zeta in Hl.
    set (recent := List.filter _ _) in Hl.
    assert (in_time_order recent ∧ Forall (λ t0, (t0 <= t')%Q) recent)
      as [Hord Hle].
    { subst recent. destruct (store !! ip) as [l0|] eqn:E; simpl; [|done].
      destruct (IH' _ _ E) as [Hord Hle]. split.
      - by apply in_time_order_filter.
      - apply Forall_forall. intros t0 Ht0%list_elem_of_In.
        apply filter_In in Ht0 as [Ht0 _].
        by apply (proj1 (Forall_forall _ _) Hle), list_elem_of_In. }
    destruct (limit <=? Z.of_nat (length recent))%Z; cbn [fst] in Hl.
    + destruct (decide (ip = client_ip)) as [->|Hne].
      * rewrite lookup_insert_eq in Hl. by injection Hl as <-.
      * rewrite lookup_insert_ne in Hl by done. eauto.
    + destruct (decide (ip = client_ip)) as [->|Hne].
      * rewrite lookup_insert_eq in Hl. injection Hl as <-. split.
        -- by apply in_time_order_snoc.
        -- apply Forall_app. split; [done|]. apply Forall_singleton.
           apply Qle_refl.
      * rewrite lookup_insert_ne in Hl by done. eauto.
Qed.

(** X5. When the clock never goes back between calls, the times on
    record of every client are in the order of the calls, earliest first:
    the first entry of a record is its oldest one, and none is later than
    the latest call. *)
Theorem rate_limit_store_in_time_order (limit window : Z) (t : Q)
    (store : gmap str (list Q)) (client_ip : str) (l : list Q) :
  reachable_at limit window t store →
  store !! client_ip = Some l →
  in_time_order l ∧ Forall (λ t0, (t0 <= t)%Q) l.
Proof. intros Hreach Hl. by eapply reachable_at_ordered. Qed.

Lemma rate_limit_store_in_time_order_example :
  in_time_order [1; 2]%Q ∧ Forall (λ t0, (t0 <= 2)%Q) [1; 2]%Q.
Proof.
  apply (rate_limit_store_in_time_order 10 60 2
           (check_rate_limit
              (check_rate_limit ∅ 1 (text "10.0.0.7") 10 60).1
              2 (text "10.0.0.7") 10 60).1
           (text "10.0.0.7") [1; 2]%Q).
  - apply (reachable_at_call 10 60 1); [|vm_compute; discriminate].
    apply (reachable_at_call 10 60 0); [|vm_compute; discriminate].
    apply reachable_at_start.
  - vm_compute. reflexivity.
Defined.

(** ** The client address *)

Lemma split_first (sep : N) (s : str) :
  ∃ first others,
    split sep s = first :: others ∧ (sep ∉ first) ∧
    (s = first ∨ ∃ rest, s = first ++ sep :: rest).
Proof.
  induction s as [|c s (first & others & Hs & Hno & Hshape)].
  - exists [], []. split; [done|]. split; [apply not_elem_of_nil|by left].
  - cbn [split]. destruct (N.eqb_spec c sep) as [->|Hne].
    + exists [], (split sep s). split; [done|].
      split; [apply not_elem_of_nil|]. right. by exists s.
    + rewrite Hs. exists (c :: first), others. split; [done|]. split.
      * intros [?|?]%elem_of_cons; [congruence|done].
      * destruct Hshape as [->|[rest ->]]; [by left|]. right. by exists rest.
Qed.

(** X6. With a non-empty forwarded-for header, the client identifier is
    the header up to its first comma, as it stands (no trimming), and the
    address of the connection plays no part: it is the whole header when
    there is no comma, and it never holds a comma. *)
Theorem get_client_ip_forwarded (header : str) (host : option str) :
  header ≠ [] →
  ∃ client_ip,
    get_client_ip {| x_forwarded_for := Some header; client_host := host |}
      = Ok client_ip ∧
    (44 ∉ client_ip) ∧
    (header = client_ip ∨ ∃ rest, header = client_ip ++ 44 :: rest).
Proof.
  intros Hne. destruct header as [|c header]; [done|].
  destruct (split_first 44 (c :: header)) as (first & others & Hs & Hno & Hshape).
  exists first. unfold get_client_ip. cbn [x_forwarded_for]. by rewrite Hs.
Qed.

Lemma get_client_ip_forwarded_example :
  ∃ client_ip,
    get_client_ip proxied_request = Ok client_ip ∧
    (44 ∉ client_ip) ∧
    (text "203.0.113.9, 10.0.0.1, 10.0.0.2" = client_ip ∨
     ∃ rest, text "203.0.113.9, 10.0.0.1, 10.0.0.2" = client_ip ++ 44 :: rest).
Proof.
  apply (get_client_ip_forwarded (text "203.0.113.9, 10.0.0.1, 10.0.0.2")
           (Some (text "10.0.0.2"))).
  vm_compute. discriminate.
Defined.

(** ** The handler *)

Lemma get_client_ip_raises client_request e :
  get_client_ip client_request = Raise e ↔
  (x_forwarded_for client_request = None ∨
   x_forwarded_for client_request = Some []) ∧
  client_host client_request = None ∧
  e = AttributeError (text "'NoneType' object has no attribute 'host'").
Proof.
  unfold get_client_ip.
  destruct (x_forwarded_for client_request) as [[|c h]|];
    destruct (client_host client_request); split;
    try (intros [= <-]); try (intros ([?|?] & ? & ->)); try done; eauto.
Qed.

(** X7. The handler answers 500 exactly when the request has no usable
    forwarded-for header (none, or an empty one) and no peer address; the
    store and the calls to the model are then left as they were. *)
Theorem no_client_address_500 (json_loads : str → result pyval)
    (openai_client : option chat_client) (current_time : Q) (now_iso : str)
    (w : world) (request : MenuItemRequest) (client_request : Request) :
  ((x_forwarded_for client_request = None ∨
    x_forwarded_for client_request = Some []) ∧
   client_host client_request = None ↔
   ∃ w' detail,
     generate_item_details json_loads openai_client current_time now_iso
       w request client_request = (w', Raise (HTTPException 500 detail))) ∧
  (∀ w' detail,
     generate_item_details json_loads openai_client current_time now_iso
       w request client_request = (w', Raise (HTTPException 500 detail)) →
     w' = w).
Proof.
  unfold generate_item_details.
  destruct (get_client_ip client_request) as [client_ip|e] eqn:Hip.
  - assert (¬ ((x_forwarded_for client_request = None ∨
                x_forwarded_for client_request = Some []) ∧
               client_host client_request = None)) as Hnot.
    { intros [Hh Hc].
      assert (get_client_ip client_request =
              Raise (AttributeError (text "'NoneType' object has no attribute 'host'")))
        by (by apply get_client_ip_raises).
      congruence. }
    destruct (check_rate_limit _ _ _ _ _) as [store [|]]; cbn [negb].
    + destruct (default false (simulate request)), openai_client as [client|];
        try destruct (call_model _ _ _ _); split;
        first [ (split; [done|]; by intros (? & ? & [= _ ?]))
              | by intros ?? [= _ ?] ].
    + split; [|by intros ?? [= _ ?]].
      split; [done|]. by intros (? & ? & [= _ ?]).
  - apply get_client_ip_raises in Hip as (Hh & Hc & ->). split.
    + split; [eauto|done].
    + by intros ?? [= <- _].
Qed.

Lemma no_client_address_example :
  ∃ w' detail,
    generate_item_details json_loads_sample (Some client_timeout) 0 (text "t")
      empty_world pizza_request anonymous_request =
    (w', Raise (HTTPException 500 detail)).
Proof.
  apply (proj1 (no_client_address_500 json_loads_sample (Some client_timeout) 0
                  (text "t") empty_world pizza_request anonymous_request)).
  split; [left|]; reflexivity.
Defined.

(** X8. A refused request and nothing else gets the answer 429: when the
    client address is known, the handler answers 429 exactly when the rate
    limiter refuses the call; the message is the fixed one, no call to the
    model is made, and the store is the one the limiter left. *)
Theorem rate_limited_429 (json_loads : str → result pyval)
    (openai_client : option chat_client) (current_time : Q) (now_iso : str)
    (w : world) (request : MenuItemRequest) (client_request : Request)
    (client_ip : str) :
  get_client_ip client_request = Ok client_ip →
  ((check_rate_limit (rate_limit_store w) current_time client_ip 10 60).2 = false ↔
   ∃ w' detail,
     generate_item_details json_loads openai_client current_time now_iso
       w request client_request = (w', Raise (HTTPException 429 detail))) ∧
  (∀ w' detail,
     generate_item_details json_loads openai_client current_time now_iso
       w request client_request = (w', Raise (HTTPException 429 detail)) →
     detail = text "Rate limit exceeded. Please try again in 1 minute." ∧
     model_calls w' = model_calls w ∧
     rate_limit_store w' =
       (check_rate_limit (rate_limit_store w) current_time client_ip 10 60).1).
Proof.
  intros Hip. unfold generate_item_details. rewrite Hip.
  destruct (check_rate_limit _ _ _ _ _) as [store [|]]; cbn [negb fst snd].
  - destruct (default false (simulate request)), openai_client as [client|];
      try destruct (call_model _ _ _ _); split;
      first [ (split; [done|]; by intros (? & ? & [= _ ?]))
            | by intros ?? [= _ ?] ].
  - split; [split; [eauto|done]|]. by intros ?? [= <- <-].
Qed.

Lemma rate_limited_example :
  ∃ w' detail,
    generate_item_details json_loads_sample (Some client_timeout) 30 (text "t")
      busy_world pizza_request direct_request =
    (w', Raise (HTTPException 429 detail)).
Proof.
  apply (proj1 (rate_limited_429 json_loads_sample (Some client_timeout) 30
                  (text "t") busy_world pizza_request direct_request
                  (text "127.0.0.1") eq_refl)).
  vm_compute. reflexivity.
Defined.

(** X9. Once the rate limiter has admitted a request, the handler always
    answers with a response, whatever the model client and the JSON decoder
    do: simulate, model or fallback.  The response carries the time stamp of
    the answer, and the call has been recorded at the end of the client's
    list, so that a request whose model call fails costs quota too. *)
Theorem admitted_request_answered (json_loads : str → result pyval)
    (openai_client : option chat_client) (current_time : Q) (now_iso : str)
    (w : world) (request : MenuItemRequest) (client_request : Request)
    (client_ip : str) :
  get_client_ip client_request = Ok client_ip →
  (check_rate_limit (rate_limit_store w) current_time client_ip 10 60).2 = true →
  ∃ w' r l,
    generate_item_details json_loads openai_client current_time now_iso
      w request client_request = (w', Ok r) ∧
    generated_at r = now_iso ∧
    rate_limit_store w' !! client_ip = Some (l ++ [current_time]).
Proof.
  intros Hip Hok. unfold generate_item_details. rewrite Hip.
  assert (∃ l, (check_rate_limit (rate_limit_store w) current_time client_ip 10 60).1
                 !! client_ip = Some (l ++ [current_time])) as [l Hl].
  { rewrite check_rate_limit_eq in Hok |- *. cbn zeta in *.
    destruct (_ <=? _)%Z; [done|]. cbn [fst]. rewrite lookup_insert_eq. eauto. }
  destruct (check_rate_limit _ _ _ _ _) as [store ok]. cbn [fst snd] in *.
  subst ok. cbn [negb].
  destruct (default false (simulate request)), openai_client as [client|];
    try (eexists _, _, l; by repeat split).
  destruct (call_model json_loads client now_iso request) as [r|] eqn:E;
    [|eexists _, _, l; by repeat split].
  exists {| rate_limit_store := store;
            model_calls := model_calls w ++
              [(gpt_model request, create_system_prompt,
                create_user_prompt (item_name request))] |}, r, l.
  split; [done|]. split; [|done].
  unfold call_model in E. destruct (client _ _ _); [|done]. simpl in E.
  destruct (validate_ai_response _ _); [|done]. by injection E as <-.
Qed.

Lemma admitted_request_example :
  ∃ w' r l,
    generate_item_details json_loads_sample (Some (client_answer (text "[]")))
      7 (text "t") empty_world pizza_request direct_request = (w', Ok r) ∧
    generated_at r = text "t" ∧
    rate_limit_store w' !! text "127.0.0.1" = Some (l ++ [7%Q]).
Proof.
  apply (admitted_request_answered json_loads_sample
           (Some (client_answer (text "[]"))) 7 (text "t") empty_world
           pizza_request direct_request (text "127.0.0.1")).
  - reflexivity.
  - vm_compute. reflexivity.
Defined.

(** X10. The only errors that leave the route are HTTP errors with the
    status 422 (item name refused), 429 (rate limit) or 500 (no client
    address): no exception of the repairer, of the JSON decoder or of the
    model client reaches the caller. *)
Theorem route_errors (json_loads : str → result pyval)
    (openai_client : option chat_client) (current_time : Q) (now_iso : str)
    (w : world) (body : RequestBody) (client_request : Request) :
  match (post_generate_item_details json_loads openai_client current_time
           now_iso w body client_request).2 with
  | Ok _ => True
  | Raise e =>
      ∃ status detail,
        e = HTTPException status detail ∧
        (status = 422 ∨ status = 429 ∨ status = 500)%Z
  end.
Proof.
  unfold post_generate_item_details.
  destruct (parse_request body) as [request|]; cbn [snd]; [|eauto 6].
  unfold generate_item_details.
  destruct (get_client_ip client_request); cbn [snd]; [|eauto 6].
  destruct (check_rate_limit _ _ _ _ _) as [store [|]]; cbn [negb snd]; [|eauto 6].
  destruct (default false (simulate request)), openai_client as [client|];
    try destruct (call_model _ _ _ _); done.
Qed.

(** X11. A request makes at most one call to the model, and makes it only
    when simulate is off and a client is configured.  The call names a model
    of the allow-list, whatever identifier the body asked for, and carries
    the user prompt built from the sanitised item name. *)
Theorem model_called_at_most_once (json_loads : str → result pyval)
    (openai_client : option chat_client) (current_time : Q) (now_iso : str)
    (w : world) (body : RequestBody) (client_request : Request) :
  let w' := (post_generate_item_details json_loads openai_client current_time
               now_iso w body client_request).1 in
  model_calls w' = model_calls w ∨
  ∃ name,
    validate_item_name (body_item_name body) = Ok name ∧
    default false (body_simulate body) = false ∧
    openai_client ≠ None ∧
    validate_gpt_model (body_gpt_model body) ∈ allowed_models ∧
    model_calls w' =
      model_calls w ++
      [(validate_gpt_model (body_gpt_model body), create_system_prompt,
        create_user_prompt name)].
Proof.
  unfold post_generate_item_details, parse_request.
  destruct (validate_item_name (body_item_name body)) as [name|] eqn:Hname;
    cbn [mbind result_bind mret result_ret fst]; [|by left].
  unfold generate_item_details.
  destruct (get_client_ip client_request); cbn [fst]; [|by left].
  destruct (check_rate_limit _ _ _ _ _) as [store [|]]; cbn [negb fst]; [|by left].
  cbn [simulate item_name gpt_model].
  destruct (default false (body_simulate body)) eqn:Hsim; [by left|].
  destruct openai_client as [client|]; [|by left].
  right. exists name. split; [done|]. split; [done|]. split; [done|].
  split; [apply validate_gpt_model_allowed|].
  by destruct (call_model _ _ _ _).
Qed.

(** ** The response repairer *)

Lemma lstrip_suffix (s : str) : ∃ pre, s = pre ++ lstrip s.
Proof.
  induction s as [|c s [pre IH]]; [by exists []|]. simpl.
  destruct (isspace c); [|by exists []].
  exists (c :: pre). simpl. by rewrite <- IH.
Qed.

Lemma strip_sublist (s : str) : strip s `sublist_of` s.
Proof.
  unfold strip, rstrip.
  destruct (lstrip_suffix s) as [pre Hs].
  destruct (lstrip_suffix (rev (lstrip s))) as [post Hr].
  apply (f_equal (@rev N)) in Hr. rewrite rev_involutive, rev_app_distr in Hr.
  rewrite Hs at 2. rewrite Hr at 2.
  apply sublist_inserts_l, sublist_inserts_r. reflexivity.
Qed.

Lemma filter_sublist {A} (f : A → bool) (l : list A) :
  List.filter f l `sublist_of` l.
Proof.
  induction l as [|x l IH]; simpl; [constructor|].
  destruct (f x); by constructor.
Qed.

Lemma sublist_elem {A} (l k : list A) (x : A) :
  l `sublist_of` k → x ∈ l → x ∈ k.
Proof.
  induction 1 as [|y l k _ IH|y l k _ IH]; [done| |].
  - intros [->|?]%elem_of_cons; [apply list_elem_of_here|].
    by apply list_elem_of_further, IH.
  - intros ?. by apply list_elem_of_further, IH.
Qed.

Lemma split_no_sep (sep : N) (s : str) :
  Forall (λ part : str, sep ∉ part) (split sep s).
Proof.
  induction s as [|c s IH]; cbn [split].
  - repeat constructor. apply not_elem_of_nil.
  - destruct (N.eqb_spec c sep) as [->|Hne].
    + constructor; [apply not_elem_of_nil|done].
    + destruct (split sep s) as [|h r].
      * repeat constructor. by intros [?|?%not_elem_of_nil]%elem_of_cons.
      * apply Forall_cons in IH as [Hh Hr]. constructor; [|done].
        by intros [?|?]%elem_of_cons.
Qed.

(** The lines of the fallback path are non-empty and hold no newline. *)
Lemma nonempty_lines_spec (response_text : str) :
  Forall (λ line : str, line ≠ [] ∧ 10 ∉ line) (nonempty_lines response_text).
Proof.
  apply Forall_forall. intros line Hline%list_elem_of_In.
  apply filter_In in Hline as [Hline Hne]. split; [by destruct line|].
  apply list_elem_of_In, list_elem_of_fmap in Hline as (raw & -> & Hraw).
  intros Hin. apply (sublist_elem _ _ _ (strip_sublist raw)) in Hin.
  by apply (proj1 (Forall_forall _ _) (split_no_sep 10 response_text) raw).
Qed.

Lemma cap_nonempty limit keep (s : str) : s ≠ [] → cap limit keep s ≠ [].
Proof.
  unfold cap. destruct (limit <? length s)%nat; [|done].
  intros _ [_ ?]%app_eq_nil. done.
Qed.

Lemma cap_elem limit keep (s : str) (c : N) :
  c ∈ cap limit keep s → c ∈ s ∨ c = 46.
Proof.
  unfold cap. destruct (limit <? length s)%nat; [|by left].
  intros [Hc|Hc]%elem_of_app.
  - left. eapply sublist_elem; [|exact Hc]. apply sublist_take.
  - right. vm_compute in Hc.
    repeat (apply elem_of_cons in Hc as [?|Hc]; [done|]).
    by apply not_elem_of_nil in Hc.
Qed.

(** X12. When the JSON decoder refuses the answer of the model, with
    [JSONDecodeError] or another [ValueError], the repairer returns the
    salvaged pair: a description that is not empty, has at most 150
    characters and holds no newline, and an upsell that is not empty. *)
Theorem fallback_well_formed (json_loads : str → result pyval)
    (response_text msg : str) :
  json_loads (strip response_text) = Raise (JSONDecodeError msg) ∨
  json_loads (strip response_text) = Raise (ValueError msg) →
  validate_ai_response json_loads response_text = Ok (parse_fallback response_text) ∧
  ai_description (parse_fallback response_text) ≠ [] ∧
  (length (ai_description (parse_fallback response_text)) ≤ 150)%nat ∧
  (10 ∉ ai_description (parse_fallback response_text)) ∧
  ai_upsell_suggestion (parse_fallback response_text) ≠ [].
Proof.
  intros Hbad. split.
  { unfold validate_ai_response, parse_structured.
    by destruct Hbad as [-> | ->]. }
  pose proof (nonempty_lines_spec response_text) as Hlines.
  unfold parse_fallback. cbn [ai_description ai_upsell_suggestion].
  set (lines := nonempty_lines response_text) in *.
  split; [|split; [|split]].
  - apply cap_nonempty. destruct lines as [|first ?]; [done|].
    by apply Forall_cons in Hlines as [[? _] _].
  - apply cap_length. lia.
  - intros [Hin|Hdot]%cap_elem; [|done].
    destruct lines as [|first ?].
    + vm_compute in Hin.
      repeat (apply elem_of_cons in Hin as [?|Hin]; [done|]).
      by apply not_elem_of_nil in Hin.
    + by apply Forall_cons in Hlines as [[_ ?] _].
  - match goal with
    | |- (if is_empty ?upsell then _ else _) ≠ [] => by destruct upsell
    end.
Qed.

Lemma fallback_example :
  validate_ai_response json_loads_sample plain_answer =
    Ok (parse_fallback plain_answer) ∧
  parse_fallback plain_answer =
    {| ai_description := text "Crisp crust, slow-cooked sauce.";
       ai_upsell_suggestion := text "add garlic bread" |}.
Proof.
  split; [|vm_compute; reflexivity].
  apply (fallback_well_formed json_loads_sample plain_answer
           (text "Expecting value: line 1 column 1 (char 0)")).
  left. vm_compute. reflexivity.
Defined.

Lemma cap_short limit keep (s : str) :
  (length s ≤ limit)%nat → cap limit keep s = s.
Proof.
  intros Hlen. unfold cap. by rewrite (proj2 (Nat.ltb_ge _ _) Hlen).
Qed.

(** X13. When the answer of the model decodes to an object whose
    description and upsell_suggestion are non-empty strings, the repairer
    returns them trimmed: as they are when the trimmed description has at
    most 150 characters and the trimmed upsell at most 100, and cut to 147,
    respectively 97, characters followed by three dots otherwise. *)
Theorem structured_fields_trimmed (json_loads : str → result pyval)
    (response_text : str) (d : gmap str pyval) (description upsell : str) :
  json_loads (strip response_text) = Ok (PDict d) →
  d !! text "description" = Some (PStr description) →
  d !! text "upsell_suggestion" = Some (PStr upsell) →
  description ≠ [] → upsell ≠ [] →
  ∃ r, validate_ai_response json_loads response_text = Ok r ∧
    ai_description r =
      (if (150 <? length (strip description))%nat
       then take 147 (strip description) ++ text "..."
       else strip description) ∧
    ai_upsell_suggestion r =
      (if (100 <? length (strip upsell))%nat
       then take 97 (strip upsell) ++ text "..."
       else strip upsell) ∧
    ((length (strip description) ≤ 150)%nat → ai_description r = strip description) ∧
    ((length (strip upsell) ≤ 100)%nat → ai_upsell_suggestion r = strip upsell).
Proof.
  intros Hd Hdesc Hup Hne Hune.
  unfold validate_ai_response, parse_structured.
  rewrite Hd. simpl. rewrite Hdesc, Hup. simpl.
  destruct description as [|c description]; [done|].
  destruct upsell as [|c' upsell]; [done|]. cbn [is_empty negb].
  cbn [mbind result_bind mret result_ret].
  eexists. split; [reflexivity|]. cbn [ai_description ai_upsell_suggestion].
  unfold cap. repeat split; try done; intros Hlen;
    by rewrite (proj2 (Nat.ltb_ge _ _) Hlen).
Qed.

Lemma structured_fields_example :
  ∃ r, validate_ai_response json_loads_sample2 tidy_json = Ok r ∧
       ai_description r = text "Wood-fired." ∧
       ai_upsell_suggestion r = text "Add a soda".
Proof.
  destruct (structured_fields_trimmed json_loads_sample2 tidy_json
              (fields_of (text " Wood-fired. ") (text "Add a soda"))
              (text " Wood-fired. ") (text "Add a soda"))
    as (r & Hr & _ & _ & Hd & Hu); try (vm_compute; reflexivity);
    try discriminate.
  exists r. split; [exact Hr|]. split.
  - rewrite Hd; vm_compute; [reflexivity|lia].
  - rewrite Hu; vm_compute; [reflexivity|lia].
Defined.

(** X14. When the answer decodes to an object in which description or
    upsell_suggestion is missing or falsy (null, false, zero, an empty
    string, list or object), the repairer gives up the object and salvages
    the raw text of the answer line by line, as it does for a text that is
    not JSON: the JSON text itself is what the description is cut from. *)
Theorem missing_field_salvaged (json_loads : str → result pyval)
    (response_text : str) (d : gmap str pyval) :
  json_loads (strip response_text) = Ok (PDict d) →
  truthy (default PNone (d !! text "description")) = false ∨
  truthy (default PNone (d !! text "upsell_suggestion")) = false →
  validate_ai_response json_loads response_text = Ok (parse_fallback response_text).
Proof.
  intros Hd Hfalsy. unfold validate_ai_response, parse_structured.
  rewrite Hd. cbn [mbind result_bind py_get].
  destruct (truthy (default PNone (d !! text "description"))) eqn:Hdesc;
    cbn [negb]; [|done].
  destruct Hfalsy as [?|Hup]; [done|]. rewrite Hup. reflexivity.
Qed.

Lemma missing_field_example :
  validate_ai_response json_loads_sample2 partial_json =
    Ok (parse_fallback partial_json) ∧
  ai_description (parse_fallback partial_json) = partial_json.
Proof.
  split; [|vm_compute; reflexivity].
  apply (missing_field_salvaged json_loads_sample2 partial_json
           (<[text "description" := PStr (text "Wood-fired.")]> ∅)).
  - vm_compute. reflexivity.
  - right. vm_compute. reflexivity.
Defined.

(** X15. The repairer raises in three cases only: the JSON decoder raised
    something other than [JSONDecodeError] and [ValueError]; the answer
    decoded to a value that is not an object, which has no [get]; or it
    decoded to an object with both fields truthy and one of them not a
    string, which has no [strip].  In the last two cases the exception is an
    [AttributeError]. *)
Theorem validate_ai_response_raises (json_loads : str → result pyval)
    (response_text : str) (e : exn) :
  validate_ai_response json_loads response_text = Raise e →
  (json_loads (strip response_text) = Raise e ∧
   (∀ msg, e ≠ JSONDecodeError msg) ∧ (∀ msg, e ≠ ValueError msg)) ∨
  (∃ v, json_loads (strip response_text) = Ok v ∧ (∀ d, v ≠ PDict d) ∧
        e = no_attribute v "get") ∨
  (∃ d v, json_loads (strip response_text) = Ok (PDict d) ∧
          truthy (default PNone (d !! text "description")) = true ∧
          truthy (default PNone (d !! text "upsell_suggestion")) = true ∧
          (d !! text "description" = Some v ∨
           d !! text "upsell_suggestion" = Some v) ∧
          (∀ s, v ≠ PStr s) ∧ e = no_attribute v "strip").
Proof.
  unfold validate_ai_response, parse_structured.
  destruct (json_loads (strip response_text)) as [parsed|e0] eqn:Hj;
    cbn [mbind result_bind].
  - destruct parsed as [| | | | | |d];
      try (intros [= <-]; right; left; eexists; by repeat split).
    cbn [py_get mbind result_bind].
    destruct (truthy (default PNone (d !! text "description"))) eqn:Htd;
      cbn [negb]; [|by intros [=]].
    destruct (truthy (default PNone (d !! text "upsell_suggestion"))) eqn:Htu;
      cbn [negb]; [|by intros [=]].
    intros H. right. right. exists d.
    destruct (d !! text "description") as [vd|] eqn:Hvd; [|done].
    destruct (d !! text "upsell_suggestion") as [vu|] eqn:Hvu; [|done].
    cbn [default] in *.
    destruct vd as [| | | |sd| |];
      try (injection H as <-; eexists; repeat split; try done; by left).
    cbn [py_strip mbind result_bind] in H.
    destruct vu as [| | | |su| |]; try done;
      injection H as <-; eexists; repeat split; try done; by right.
  - destruct e0; try done; intros [= <-]; left; by repeat split.
Qed.

Lemma validate_ai_response_raises_example :
  (json_loads_sample (strip (text "[]")) =
     Raise (no_attribute (PList []) "get") ∧
   (∀ msg, no_attribute (PList []) "get" ≠ JSONDecodeError msg) ∧
   (∀ msg, no_attribute (PList []) "get" ≠ ValueError msg)) ∨
  (∃ v, json_loads_sample (strip (text "[]")) = Ok v ∧ (∀ d, v ≠ PDict d) ∧
        no_attribute (PList []) "get" = no_attribute v "get") ∨
  (∃ d v, json_loads_sample (strip (text "[]")) = Ok (PDict d) ∧
          truthy (default PNone (d !! text "description")) = true ∧
          truthy (default PNone (d !! text "upsell_suggestion")) = true ∧
          (d !! text "description" = Some v ∨
           d !! text "upsell_suggestion" = Some v) ∧
          (∀ s, v ≠ PStr s) ∧
          no_attribute (PList []) "get" = no_attribute v "strip").
Proof.
  apply (validate_ai_response_raises json_loads_sample (text "[]")).
  vm_compute. reflexivity.
Defined.

(** ** The keyword classifier *)

Lemma lower_app (a b : str) : lower (a ++ b) = lower a ++ lower b.
Proof. unfold lower. apply bind_app. Qed.





Lemma startswith_app (w rest : str) : startswith (w ++ rest) w = true.
Proof.
  induction w as [|c w IH]; [by destruct rest|]. simpl.
  by rewrite N.eqb_refl, IH.
Qed.

Lemma contains_middle (w before after : str) :
  contains w (before ++ w ++ after) = true.
Proof.
  induction before as [|c before IH]; cbn [app].
  - destruct (w ++ after) eqn:E; cbn [contains]; rewrite <- E;
      by rewrite startswith_app.
  - cbn [contains]. rewrite IH. apply orb_true_r.
Qed.

Lemma any_in_middle (words : list str) (w before m after : str) :
  w ∈ words → lower m = w →
  any_in words (lower (before ++ m ++ after)) = true.
Proof.
  intros Hw Hm. unfold any_in. apply existsb_exists. exists w.
  split; [by apply list_elem_of_In|].
  rewrite !lower_app, Hm. apply contains_middle.
Qed.

Lemma first_category_rank (item_name : str) (c : category) :
  any_in (keywords c) (lower item_name) = true →
  (rank (first_category item_name) ≤ rank c)%nat.
Proof.
  unfold first_category, category_order. cbn [List.find].
  intros Hc.
  destruct (any_in (keywords Italian) (lower item_name)) eqn:E1; [cbn; lia|].
  destruct (any_in (keywords Burger) (lower item_name)) eqn:E2;
    [destruct c; cbn; try lia; congruence|].
  destruct (any_in (keywords Indian) (lower item_name)) eqn:E3;
    [destruct c; cbn; try lia; congruence|].
  destruct (any_in (keywords Sushi) (lower item_name)) eqn:E4;
    [destruct c; cbn; try lia; congruence|].
  destruct (any_in (keywords Salad) (lower item_name)) eqn:E5;
    [destruct c; cbn; try lia; congruence|].
  destruct (any_in (keywords Dessert) (lower item_name)) eqn:E6;
    [destruct c; cbn; try lia; congruence|].
  destruct (any_in (keywords Drink) (lower item_name)) eqn:E7;
    [destruct c; cbn; try lia; congruence|].
  destruct c; cbn; try lia; congruence.
Qed.

(** X17. A keyword anywhere in the item name, in any letter case and
    even inside a longer word, puts the name in the category of the keyword
    or in one tested before it; so every name that contains pizza or pasta
    gets the Italian answer, whatever else it contains. *)
Theorem keyword_anywhere (c : category) (w before m after : str) :
  w ∈ keywords c → lower m = w →
  (rank (first_category (before ++ m ++ after)) ≤ rank c)%nat ∧
  (c = Italian →
   get_simulate_response (before ++ m ++ after) =
     response_of Italian (before ++ m ++ after)).
Proof.
  intros Hw Hm.
  pose proof (first_category_rank (before ++ m ++ after) c
                (any_in_middle _ w before m after Hw Hm)) as Hrank.
  split; [done|]. intros ->. rewrite get_simulate_response_first.
  by destruct (first_category (before ++ m ++ after)); cbn in Hrank; try lia.
Qed.

Lemma keyword_anywhere_example :
  get_simulate_response (text "Chicken Burger with PASTA salad") =
    response_of Italian (text "Chicken Burger with PASTA salad").
Proof.
  apply (proj2 (keyword_anywhere Italian (text "pasta")
                  (text "Chicken Burger with ") (text "PASTA") (text " salad")
                  ltac:(apply (bool_decide_unpack _); vm_compute; exact I)
                  ltac:(vm_compute; reflexivity))).
  reflexivity.
Defined.

(** X18. The description of the classifier is never cut: its length is
    the length of the item name plus that of the text of the category, which
    has between 56 and 89 characters.  So every name of up to 61 characters
    gets a description of at most 150 characters, and every name of 95
    characters or more gets a longer one.  The upsell has between 28 and 47
    characters. *)
Theorem get_simulate_response_lengths (item_name : str) :
  length (ai_description (get_simulate_response item_name)) =
    (length item_name + length (description_tail (first_category item_name)))%nat ∧
  (56 ≤ length (description_tail (first_category item_name)) ≤ 89)%nat ∧
  ((length item_name ≤ 61)%nat →
   (length (ai_description (get_simulate_response item_name)) ≤ 150)%nat) ∧
  ((95 ≤ length item_name)%nat →
   (150 < length (ai_description (get_simulate_response item_name)))%nat) ∧
  (28 ≤ length (ai_upsell_suggestion (get_simulate_response item_name)) ≤ 47)%nat.
Proof.
  rewrite get_simulate_response_first. cbn [ai_description ai_upsell_suggestion response_of].
  rewrite length_app.
  assert (56 ≤ length (description_tail (first_category item_name)) ≤ 89)%nat
    by (destruct (first_category item_name); vm_compute; lia).
  assert (28 ≤ length (upsell_of (first_category item_name)) ≤ 47)%nat
    by (destruct (first_category item_name); vm_compute; lia).
  repeat split; lia.
Qed.

Lemma get_simulate_response_lengths_example :
  (length (ai_description (get_simulate_response (text "Margherita Pizza"))) ≤ 150)%nat ∧
  (150 < length (ai_description (get_simulate_response (replicate 95 97%N))))%nat.
Proof.
  split.
  - apply (proj1 (proj2 (proj2 (get_simulate_response_lengths _)))).
    vm_compute. lia.
  - apply (proj1 (proj2 (proj2 (proj2 (get_simulate_response_lengths _))))).
    vm_compute. lia.
Defined.

(** ** The validators *)

Lemma forbidden_not_space (c : N) : c ∈ forbidden_chars → isspace c = false.
Proof.
  unfold forbidden_chars. intros Hc.
  repeat (apply elem_of_cons in Hc as [->|Hc]; [reflexivity|]).
  by apply not_elem_of_nil in Hc.
Qed.

Lemma forbidden_not_kept (c : N) : c ∈ forbidden_chars → kept c = false.
Proof.
  unfold forbidden_chars. intros Hc.
  repeat (apply elem_of_cons in Hc as [->|Hc]; [reflexivity|]).
  by apply not_elem_of_nil in Hc.
Qed.

Lemma lstrip_id (c : N) (s : str) : isspace c = false → lstrip (c :: s) = c :: s.
Proof. intros Hc. simpl. by rewrite Hc. Qed.

Lemma strip_id (s : str) :
  Forall (λ c, isspace c = false) s → strip s = s.
Proof.
  intros Hs. unfold strip, rstrip.
  assert (∀ l : str, Forall (λ c, isspace c = false) l → lstrip l = l) as Hl.
  { intros [|c l] Hcl; [done|]. apply Forall_cons in Hcl as [Hc _].
    by apply lstrip_id. }
  rewrite (Hl s Hs), Hl, rev_involutive; [done|].
  apply Forall_forall. intros c Hc%list_elem_of_In%in_rev%list_elem_of_In.
  by apply (proj1 (Forall_forall _ _) Hs).
Qed.

(** X19. The test for an empty name comes before the cleaning: a name
    that is not empty and is made only of the characters the sanitiser
    removes (angle brackets and quotes) is accepted, as the empty string. *)
Theorem validate_item_name_accepts_empty (v : str) :
  v ≠ [] → Forall (λ c, c ∈ forbidden_chars) v →
  validate_item_name v = Ok [].
Proof.
  intros Hne Hv.
  assert (strip v = v) as Hstrip.
  { apply strip_id. eapply Forall_impl; [exact Hv|]. apply forbidden_not_space. }
  assert (sanitize v = []) as Hclean.
  { unfold sanitize, re_sub_class. rewrite Hstrip.
    change (λ c : N, negb (existsb (N.eqb c) forbidden_chars)) with kept.
    clear Hne Hstrip. induction Hv as [|c v Hc _ IH]; [done|].
    simpl. by rewrite (forbidden_not_kept c Hc). }
  unfold validate_item_name, validate_item_name_with.
  rewrite Hstrip, Hclean. destruct v; [done|]. reflexivity.
Qed.

Lemma validate_item_name_accepts_empty_example :
  validate_item_name (text "<>") = Ok [].
Proof.
  apply validate_item_name_accepts_empty.
  - vm_compute. discriminate.
  - repeat constructor; apply (bool_decide_unpack _); vm_compute; exact I.
Defined.

Lemma lstrip_blank (s : str) : Forall (λ c, isspace c = true) s → lstrip s = [].
Proof. induction 1 as [|c s Hc _ IH]; [done|]. simpl. by rewrite Hc. Qed.

(** X20. A name that is empty or made of whitespace only is refused with
    the message that the item name cannot be empty. *)
Theorem validate_item_name_refuses_blank (v : str) :
  Forall (λ c, isspace c = true) v →
  validate_item_name v = Raise (ValueError (text "Item name cannot be empty")).
Proof.
  intros Hv. unfold validate_item_name, validate_item_name_with.
  assert (strip v = []) as ->
    by (unfold strip; by rewrite (lstrip_blank v Hv)).
  by rewrite orb_true_r.
Qed.

Lemma validate_item_name_refuses_blank_example :
  validate_item_name [32; 9; 160; 10] =
    Raise (ValueError (text "Item name cannot be empty")).
Proof.
  apply validate_item_name_refuses_blank. repeat constructor.
Defined.

(** X21. An accepted name is what is left of the raw name when some of
    its characters are taken out, nothing being added, changed or moved; it
    has at most 100 characters and none of the nine patterns is found in
    it. *)
Theorem validate_item_name_accepted (v s : str) :
  validate_item_name v = Ok s →
  s `sublist_of` v ∧ (length s ≤ 100)%nat ∧
  ∀ p, p ∈ suspicious_patterns → re_search p s = false.
Proof.
  intros Hok. pose proof (validate_item_name_length v s Hok) as Hlen.
  revert Hok. unfold validate_item_name, validate_item_name_with.
  destruct (is_empty v || is_empty (strip v)); [done|].
  destruct (100 <? length (sanitize v))%nat; [done|].
  destruct (existsb _ suspicious_patterns) eqn:Hnone; [done|].
  intros [= <-]. split; [|split; [done|by apply none_found]].
  unfold sanitize, re_sub_class.
  etrans; [apply filter_sublist|apply strip_sublist].
Qed.

Lemma validate_item_name_accepted_example :
  text "Joes Pizza" `sublist_of` text " Joe's Pizza " ∧
  (length (text "Joes Pizza") ≤ 100)%nat ∧
  ∀ p, p ∈ suspicious_patterns → re_search p (text "Joes Pizza") = false.
Proof.
  apply (validate_item_name_accepted (text " Joe's Pizza ") (text "Joes Pizza")).
  vm_compute. reflexivity.
Defined.

(** X22. The model-id validator always returns a member of the
    allow-list, and validating its result again changes nothing. *)
Theorem validate_gpt_model_idempotent (v : option str) :
  validate_gpt_model v ∈ allowed_models ∧
  validate_gpt_model (Some (validate_gpt_model v)) = validate_gpt_model v.
Proof.
  pose proof (validate_gpt_model_allowed v) as Hin. split; [done|].
  generalize dependent (validate_gpt_model v). intros m Hin.
  unfold validate_gpt_model. by rewrite bool_decide_eq_true_2.
Qed.

(** ** The prompts *)

Lemma create_user_prompt_parts (item_name : str) :
  create_user_prompt item_name =
  user_prompt_head ++ item_name ++ user_prompt_tail.
Proof.
  unfold create_user_prompt, user_prompt_head. cbn [join_lines].
  rewrite <- !app_assoc. do 3 f_equal.
Qed.

(** X23. The user prompt is the same text for every item name but for
    the name itself, which is put between the double quotes of the first
    line as it is.  The name of a validated request holds no double quote,
    so it cannot end the quotation, and it has at most 100 characters. *)
Theorem user_prompt_quotes_name (body : RequestBody) (request : MenuItemRequest) :
  parse_request body = Ok request →
  create_user_prompt (item_name request) =
    user_prompt_head ++ item_name request ++ user_prompt_tail ∧
  (34 ∉ item_name request) ∧
  (length (item_name request) ≤ 100)%nat.
Proof.
  unfold parse_request.
  destruct (validate_item_name (body_item_name body)) as [name|] eqn:Hname;
    [|done].
  intros [= <-]. cbn [item_name]. split; [apply create_user_prompt_parts|].
  split; [|by eapply validate_item_name_length].
  apply validate_item_name_result in Hname as ->.
  intros Hin%list_elem_of_In.
  apply (sanitize_no_forbidden (body_item_name body) 34); [|done].
  right. right. by left.
Qed.

Lemma user_prompt_example :
  create_user_prompt (text "Joes Pizza") =
    user_prompt_head ++ text "Joes Pizza" ++ user_prompt_tail ∧
  (34 ∉ text "Joes Pizza") ∧
  (length (text "Joes Pizza") ≤ 100)%nat.
Proof.
  apply (user_prompt_quotes_name
           {| body_item_name := text " Joe's Pizza "; body_simulate := None;
              body_gpt_model := None |}
           {| item_name := text "Joes Pizza"; simulate := None;
              gpt_model := text "gpt-3.5-turbo" |}).
  vm_compute. reflexivity.
Defined.

(** ** The set-up script *)

Lemma create_env_file_files (m : machine) :
  (∀ content, files m !! text ".env" = Some content →
     files (create_env_file m) = files m) ∧
  (files m !! text ".env" = None →
     files (create_env_file m) = <[text ".env" := env_template]> (files m)) ∧
  is_Some (files (create_env_file m) !! text ".env") ∧
  (∀ path, path ≠ text ".env" →
     files (create_env_file m) !! path = files m !! path).
Proof.
  assert (is_Some (files (create_env_file m) !! text ".env")) as Hsome.
  { unfold create_env_file.
    destruct (files m !! text ".env") as [content|] eqn:E; cbn [files print].
    - by rewrite E.
    - rewrite lookup_insert_eq. eauto. }
  split; [|split; [|split; [done|]]].
  - intros content H. unfold create_env_file. by rewrite H.
  - intros H. unfold create_env_file. by rewrite H.
  - intros path Hpath. unfold create_env_file.
    destruct (files m !! text ".env"); cbn [files print]; [done|].
    by rewrite lookup_insert_ne.
Qed.

(** X24. [create_env_file] never overwrites: when a [.env] exists, no
    file is changed; when none exists, it is created with the template and
    no other file is changed.  Either way a [.env] exists afterwards, and
    running the function again changes no file. *)
Theorem create_env_file_keeps_existing (m : machine) :
  (∀ content, files m !! text ".env" = Some content →
     files (create_env_file m) = files m) ∧
  (files m !! text ".env" = None →
     files (create_env_file m) = <[text ".env" := env_template]> (files m)) ∧
  is_Some (files (create_env_file m) !! text ".env") ∧
  (∀ path, path ≠ text ".env" →
     files (create_env_file m) !! path = files m !! path) ∧
  files (create_env_file (create_env_file m)) = files (create_env_file m).
Proof.
  destruct (create_env_file_files m) as (Hkeep & Hnew & Hsome & Hother).
  repeat split; try done.
  destruct Hsome as [content Hcontent].
  by apply (proj1 (create_env_file_files (create_env_file m)) content).
Qed.

Lemma create_env_file_example :
  files (create_env_file configured_machine) = files configured_machine ∧
  files (create_env_file fresh_machine) = {[ text ".env" := env_template ]}.
Proof.
  split.
  - apply (proj1 (create_env_file_keeps_existing configured_machine)
             (text "OPENAI_API_KEY=sk-live" ++ [10])).
    vm_compute. reflexivity.
  - rewrite (proj1 (proj2 (create_env_file_keeps_existing fresh_machine)));
      reflexivity.
Defined.

(** X25. When [pip] returns a non-zero code, the script ends with exit
    code 1 right after the failure message, and [create_env_file] is not
    run: the files are those [pip] left.  When [pip] returns zero, the
    script returns normally and a [.env] exists, which is the one [pip] left
    if there was one. *)
Theorem setup_main_outcomes (executable : str) (check_call : command)
    (m : machine) :
  let argv := [executable; text "-m"; text "pip"; text "install"; text "-r";
               text "requirements.txt"] in
  let ran := check_call argv (files m) in
  let out := setup_main executable check_call m in
  (ran.2 ≠ 0%Z →
     out.2 = SystemExit 1 ∧ files out.1 = ran.1 ∧
     last (printed out.1) = Some ([10060] ++ text " Failed to install requirements")) ∧
  (ran.2 = 0%Z →
     out.2 = Returned ∧ is_Some (files out.1 !! text ".env") ∧
     (∀ content, ran.1 !! text ".env" = Some content → files out.1 = ran.1) ∧
     (∀ path, path ≠ text ".env" → files out.1 !! path = ran.1 !! path)).
Proof.
  intros argv ran out. subst out. unfold setup_main, install_requirements.
  cbn [files print]. fold argv. fold ran. split.
  - intros Hcode. rewrite (proj2 (Z.eqb_neq _ _) Hcode). cbn [fst snd files print printed].
    repeat split. by rewrite last_snoc.
  - intros ->. rewrite Z.eqb_refl. cbn [fst snd files print].
    set (m1 := print _ {| files := ran.1; printed := _ |}).
    destruct (create_env_file_files m1) as (Hkeep & _ & Hsome & Hother).
    repeat split; done.
Qed.

Lemma setup_main_example :
  (setup_main (text "/usr/bin/python3") pip_fails configured_machine).2
    = SystemExit 1 ∧
  (setup_main (text "/usr/bin/python3") pip_installs configured_machine).2
    = Returned ∧
  files (setup_main (text "/usr/bin/python3") pip_installs configured_machine).1
    !! text ".env" = Some (text "OPENAI_API_KEY=sk-live" ++ [10]).
Proof.
  split; [|split].
  - apply (proj1 (setup_main_outcomes (text "/usr/bin/python3") pip_fails
                    configured_machine)).
    vm_compute. discriminate.
  - apply (proj2 (setup_main_outcomes (text "/usr/bin/python3") pip_installs
                    configured_machine)).
    vm_compute. reflexivity.
  - destruct (proj2 (setup_main_outcomes (text "/usr/bin/python3") pip_installs
                       configured_machine) eq_refl) as (_ & _ & Hkeep & _).
    rewrite (Hkeep (text "OPENAI_API_KEY=sk-live" ++ [10]));
      vm_compute; reflexivity.
Defined.

(** ** The client address and the rate limit *)

(** X26. A request with a forwarded-for header is counted under the
    first token of the header and nothing else: when that token has no
    record in the store, the request is admitted and answered, however many
    requests the address of the connection has on record, and the record of
    that address is left as it is. *)
Theorem unseen_forwarded_token_admitted (json_loads : str → result pyval)
    (openai_client : option chat_client) (current_time : Q) (now_iso : str)
    (w : world) (request : MenuItemRequest) (header : str) (host : option str)
    (client_ip : str) :
  header ≠ [] →
  get_client_ip {| x_forwarded_for := Some header; client_host := host |}
    = Ok client_ip →
  rate_limit_store w !! client_ip = None →
  ∃ w' r,
    generate_item_details json_loads openai_client current_time now_iso
      w request {| x_forwarded_for := Some header; client_host := host |}
      = (w', Ok r) ∧
    ∀ peer, host = Some peer → peer ≠ client_ip →
      rate_limit_store w' !! peer = rate_limit_store w !! peer.
Proof.
  intros Hne Hip Hnone. unfold generate_item_details. rewrite Hip.
  rewrite check_rate_limit_eq. cbn zeta. rewrite Hnone. cbn [default List.filter].
  cbn [length Z.of_nat Z.leb Z.compare negb].
  destruct (default false (simulate request)), openai_client as [client|];
    try destruct (call_model _ _ _ _);
    eexists _, _; (split; [reflexivity|]);
    intros peer _ Hpeer; cbn [rate_limit_store]; by rewrite lookup_insert_ne.
Qed.

Lemma unseen_forwarded_token_example :
  (check_rate_limit (rate_limit_store busy_world) 30 (text "127.0.0.1") 10 60).2
    = false ∧
  ∃ w' r,
    generate_item_details json_loads_sample None 30 (text "t")
      busy_world pizza_request rotated_request = (w', Ok r) ∧
    ∀ peer, Some (text "127.0.0.1") = Some peer → peer ≠ text "198.51.100.1" →
      rate_limit_store w' !! peer = rate_limit_store busy_world !! peer.
Proof.
  split; [vm_compute; reflexivity|].
  apply (unseen_forwarded_token_admitted json_loads_sample None 30 (text "t")
           busy_world pizza_request (text "198.51.100.1")
           (Some (text "127.0.0.1")) (text "198.51.100.1")).
  - vm_compute. discriminate.
  - vm_compute. reflexivity.
  - vm_compute. reflexivity.
Defined.
